(** * The spreadsheet-to-table handler: row validation, batching, orchestration

    A shallow embedding of [handler.ts], and of [buildPutRequests] of its
    JavaScript twin, which stringifies [userId] with the [toString] method.

    - JavaScript strings are sequences of UTF-16 code units ([list N]).
    - A number is an IEEE-754 double, as [spec_float].
    - A decoded row is a JavaScript object: a finite map from property names
      to cell values.
    - Regular expressions are a small syntax with a derivative matcher; both
      patterns of the source are anchored at both ends, so [test] is
      whole-string membership.
    - Effects (console, storage, store) are threaded through an explicit
      world and an event trace. *)

From Stdlib Require Import ZArith NArith String Ascii.
From Stdlib.Strings Require Import Byte.
From Stdlib Require Import Floats.SpecFloat.
From stdpp Require Import gmap strings list fin_maps pretty.

Set Default Proof Using "Type".

(** ** Strings and values *)

Definition JsString := list N.

Definition u16 (s : string) : JsString :=
  N_of_ascii <$> list_ascii_of_string s.

Inductive JsVal :=
| JUndefined
| JNull
| JBoolean (b : bool)
| JNumber (n : spec_float)
| JString (s : JsString).

Definition typeof (v : JsVal) : string :=
  match v with
  | JUndefined => "undefined"
  | JNull => "object"
  | JBoolean _ => "boolean"
  | JNumber _ => "number"
  | JString _ => "string"
  end.

(** ToBoolean: the falsy values are undefined, null, false, +0, -0, NaN
    and the empty string. *)
Definition ToBoolean (v : JsVal) : bool :=
  match v with
  | JUndefined | JNull => false
  | JBoolean b => b
  | JNumber (S754_zero _) | JNumber S754_nan => false
  | JNumber _ => true
  | JString s => negb (Nat.eqb (length s) 0)
  end.

Definition code_units_eqb (s t : JsString) : bool :=
  bool_decide (s = t).

(** The [===] operator on primitives. *)
Definition strict_equal (a b : JsVal) : bool :=
  match a, b with
  | JUndefined, JUndefined => true
  | JNull, JNull => true
  | JBoolean x, JBoolean y => Bool.eqb x y
  | JNumber x, JNumber y => SFeqb x y
  | JString s, JString t => code_units_eqb s t
  | _, _ => false
  end.

(** The [??] operator. *)
Definition nullish_coalesce (a b : JsVal) : JsVal :=
  match a with
  | JUndefined | JNull => b
  | _ => a
  end.

(** A row object; reading a property that is not there gives undefined. *)
Abbreviation RawRow := (gmap string JsVal).

Definition prop (o : RawRow) (k : string) : JsVal :=
  default JUndefined (o !! k).

Definition Object_values (o : RawRow) : list JsVal :=
  (map_to_list o).*2.

(** ** Regular expressions over code units *)

Inductive regex :=
| Void
| Eps
| Class (p : N → bool)
| Cat (r1 r2 : regex)
| Alt (r1 r2 : regex)
| Star (r : regex).

Definition Chr (c : ascii) : regex := Class (N.eqb (N_of_ascii c)).
Definition Plus (r : regex) : regex := Cat r (Star r).
Definition Opt (r : regex) : regex := Alt r Eps.

Fixpoint Lit (s : string) : regex :=
  match s with
  | EmptyString => Eps
  | String c s' => Cat (Chr c) (Lit s')
  end.

Fixpoint nullable (r : regex) : bool :=
  match r with
  | Void => false
  | Eps => true
  | Class _ => false
  | Cat r1 r2 => nullable r1 && nullable r2
  | Alt r1 r2 => nullable r1 || nullable r2
  | Star _ => true
  end.

Fixpoint deriv (c : N) (r : regex) : regex :=
  match r with
  | Void => Void
  | Eps => Void
  | Class p => if p c then Eps else Void
  | Cat r1 r2 =>
      if nullable r1
      then Alt (Cat (deriv c r1) r2) (deriv c r2)
      else Cat (deriv c r1) r2
  | Alt r1 r2 => Alt (deriv c r1) (deriv c r2)
  | Star r1 => Cat (deriv c r1) (Star r1)
  end.

Fixpoint matches (r : regex) (s : JsString) : bool :=
  match s with
  | [] => nullable r
  | c :: s' => matches (deriv c r) s'
  end.

(** The language of a pattern, as a relation. *)
Inductive Matches : regex → JsString → Prop :=
| MEps : Matches Eps []
| MClass p c : p c = true → Matches (Class p) [c]
| MCat r1 r2 s1 s2 :
    Matches r1 s1 → Matches r2 s2 → Matches (Cat r1 r2) (s1 ++ s2)
| MAltL r1 r2 s : Matches r1 s → Matches (Alt r1 r2) s
| MAltR r1 r2 s : Matches r2 s → Matches (Alt r1 r2) s
| MStarNil r : Matches (Star r) []
| MStarApp r s1 s2 :
    Matches r s1 → Matches (Star r) s2 → Matches (Star r) (s1 ++ s2).

(** [\s]: WhiteSpace and LineTerminator code units. *)
Definition is_space (c : N) : bool :=
  ((9 <=? c) && (c <=? 13) || (c =? 32) || (c =? 160) || (c =? 5760)
   || (8192 <=? c) && (c <=? 8202) || (c =? 8232) || (c =? 8233)
   || (c =? 8239) || (c =? 8287) || (c =? 12288) || (c =? 65279))%N.

Definition at_sign : N := N_of_ascii "@".

(** [[^\s@]] and [[^\s]] *)
Definition not_space_at (c : N) : bool := negb (is_space c || (c =? at_sign)%N).
Definition not_space (c : N) : bool := negb (is_space c).

(** [/^[^\s@]+@[^\s@]+\.[^\s@]+$/] *)
Definition email_regex : regex :=
  Cat (Plus (Class not_space_at))
    (Cat (Chr "@")
       (Cat (Plus (Class not_space_at))
          (Cat (Chr ".") (Plus (Class not_space_at))))).

(** [/^(https?:\/\/[^\s]+)$/] *)
Definition url_regex : regex :=
  Cat (Lit "http") (Cat (Opt (Chr "s")) (Cat (Lit "://") (Plus (Class not_space)))).

(** ** Records of the program *)

Record ValidationResult := { valid : bool; error : option JsString }.

(** [{ S: v }] *)
Inductive AttributeValue := AttrS (v : JsVal).

Record PutRequestT := { Item : gmap string AttributeValue }.
Record WriteRequest := { PutRequest : PutRequestT }.

Definition Buffer := list byte.

(** The body of a fetched object: the chunks the stream yields, each
    already a buffer, and the failure the iteration ends in, if any (a
    missing body fails the iteration at once). *)
Record Readable (Error : Type) := {
  chunks : list Buffer;
  stream_error : option Error
}.
Arguments chunks {Error}.
Arguments stream_error {Error}.

Record Workbook (Sheet : Type) := {
  SheetNames : option (list string);
  Sheets : gmap string Sheet
}.
Arguments SheetNames {Sheet}.
Arguments Sheets {Sheet}.

Record S3EventRecord := {
  bucket_name : option JsString;
  object_key : option JsString
}.

Record S3Event := { Records : list S3EventRecord }.

(** The trigger as the untyped twin reads it: [Records] may be missing. *)
Record TwinEvent := { twin_Records : option (list S3EventRecord) }.

(** ** Sample inputs *)

Definition sample_row (userId name email profileImageUrl : JsVal) : RawRow :=
  <["userId" := userId]>
  (<["name" := name]>
  (<["email" := email]>
  (<["profileImageUrl" := profileImageUrl]> ∅))).

(** A valid row whose userId is the number 7. *)
Definition row_ann : RawRow :=
  sample_row (JNumber (S754_finite false 7 0)) (JString (u16 "Ann"))
    (JString (u16 "ann@example.com")) (JString (u16 "https://x.com/ann.png")).

(** A valid row with a string userId and no profileImageUrl. *)
Definition row_bob : RawRow :=
  <["userId" := JString (u16 "u2")]>
  (<["name" := JString (u16 "Bob")]>
  (<["email" := JString (u16 "bob@example.org")]> ∅)).

(** The name is the number 42. *)
Definition row_numeric_name : RawRow :=
  <["userId" := JString (u16 "u3")]>
  (<["name" := JNumber (S754_finite false 21 1)]>
  (<["email" := JString (u16 "cy@example.org")]> ∅)).

(** The userId is the number 0. *)
Definition row_userId_zero : RawRow :=
  <["userId" := JNumber (S754_zero false)]>
  (<["name" := JString (u16 "Ann")]>
  (<["email" := JString (u16 "ann@example.com")]> ∅)).

(** The email has a second [@] after the dot. *)
Definition row_two_ats : RawRow :=
  <["userId" := JString (u16 "u1")]>
  (<["name" := JString (u16 "Ann")]>
  (<["email" := JString (u16 "a@b.c@d")]> ∅)).

(** Every field is null or empty. *)
Definition row_blank : RawRow :=
  sample_row JNull (JString []) (JString []) JNull.

(** Number::toString on the zeros, NaN, the infinities and the integers
    [m * 2^e] with [0 <= e]; the samples use no other number. *)
Definition sample_NumberToString (n : spec_float) : JsString :=
  match n with
  | S754_zero _ => u16 "0"
  | S754_nan => u16 "NaN"
  | S754_infinity false => u16 "Infinity"
  | S754_infinity true => u16 "-Infinity"
  | S754_finite s m e =>
      u16 ((if s then "-" else "") +:+ pretty (Z.pos m * 2 ^ e)%Z)
  end.

Definition sample_event : S3Event :=
  {| Records :=
       [{| bucket_name := Some (u16 "uploads");
           object_key := Some (u16 "new+users.xlsx") |}] |}.

(** Collaborators over a world that counts the batch writes the store has
    accepted; a sheet is its rows; errors are messages. The store throws on
    the write that would be number [fail_at]. *)
Definition sample_decodeURIComponent (s : JsString) : string + JsString := inr s.

Definition sample_s3_send (bucket key : JsString) (w : nat)
    : (string + Readable string) * nat :=
  (inr {| chunks := [[x50; x4b]]; stream_error := None |}, w).

Definition sample_XLSX_read (rows : list RawRow) (buffer : Buffer)
    : string + Workbook (list RawRow) :=
  inr {| SheetNames := Some ["Sheet1"%string]; Sheets := {["Sheet1"%string := rows]} |}.

Definition sample_sheet_to_json (sheet : option (list RawRow))
    : string + list RawRow :=
  inr (default [] sheet).

Definition sample_dynamoDB_send (fail_at : nat) (table : string)
    (items : option (list WriteRequest)) (w : nat) : (string + unit) * nat :=
  if Nat.eqb w fail_at then (inl "throttled"%string, w) else (inr tt, S w).

Section Program.

(** Number::toString of the language, which the program does not define. *)
Variable NumberToString : spec_float → JsString.

Definition ToString (v : JsVal) : JsString :=
  match v with
  | JUndefined => u16 "undefined"
  | JNull => u16 "null"
  | JBoolean true => u16 "true"
  | JBoolean false => u16 "false"
  | JNumber n => NumberToString n
  | JString s => s
  end.

(** [RegExp.prototype.test] converts its argument to a string first. *)
Definition RegExp_test (r : regex) (v : JsVal) : bool :=
  matches r (ToString v).

(** ** The row validator *)

Definition isValidEmail (email : JsVal) : bool := RegExp_test email_regex email.

Definition isValidUrl (url : JsVal) : bool := RegExp_test url_regex url.

(** [!row] is false for every object, so only the [every] remains. *)
Definition isRowEmpty (row : RawRow) : bool :=
  forallb
    (λ val, strict_equal val JNull || strict_equal val JUndefined
            || strict_equal val (JString []))
    (Object_values row).

Definition validateUser (user : RawRow) (index : nat) : ValidationResult :=
  if isRowEmpty user then
    {| valid := false;
       error := Some (u16 ("Row " +:+ pretty (index + 2) +:+ ": Empty row")) |}
  else if negb (ToBoolean (prop user "userId"))
          || (negb (String.eqb (typeof (prop user "userId")) "string")
              && negb (String.eqb (typeof (prop user "userId")) "number"))
  then
    {| valid := false;
       error := Some (u16 ("Row " +:+ pretty (index + 2)
                           +:+ ": Missing or invalid 'userId'")) |}
  else if negb (ToBoolean (prop user "name"))
          || negb (String.eqb (typeof (prop user "name")) "string")
  then
    {| valid := false;
       error := Some (u16 ("Row " +:+ pretty (index + 2)
                           +:+ ": Missing or invalid 'name'")) |}
  else if negb (ToBoolean (prop user "email"))
          || negb (String.eqb (typeof (prop user "email")) "string")
          || negb (isValidEmail (prop user "email"))
  then
    {| valid := false;
       error := Some (u16 ("Row " +:+ pretty (index + 2) +:+ ": Invalid 'email'")) |}
  else if ToBoolean (prop user "profileImageUrl")
          && negb (isValidUrl (prop user "profileImageUrl"))
  then
    {| valid := false;
       error := Some (u16 ("Row " +:+ pretty (index + 2)
                           +:+ ": Invalid 'profileImageUrl'")) |}
  else {| valid := true; error := None |}.

(** The validation pass of the handler: [filter] with the callback that
    pushes the diagnostic of every rejected row onto [errors]. The callback
    pushes [result.error] as it finds it, so an entry is an optional string. *)
Fixpoint filter_validate (jsonData : list RawRow) (i : nat)
    (errors : list (option JsString)) : list RawRow * list (option JsString) :=
  match jsonData with
  | [] => ([], errors)
  | user :: rest =>
      let result := validateUser user i in
      let errors := if valid result then errors else errors ++ [error result] in
      let '(validUsers, errors) := filter_validate rest (S i) errors in
      (if valid result then user :: validUsers else validUsers, errors)
  end.

(** ** Store items *)

Definition buildPutRequests (validUsers : list RawRow) : list WriteRequest :=
  (λ user,
     {| PutRequest :=
          {| Item :=
               <["userId" := AttrS (JString (ToString (prop user "userId")))]>
               (<["name" := AttrS (prop user "name")]>
               (<["email" := AttrS (prop user "email")]>
               (<["profileImage" :=
                    AttrS (nullish_coalesce (prop user "profileImageUrl")
                             (JString []))]> ∅))) |} |})
  <$> validUsers.

(** The JavaScript twin calls the [toString] method instead of [String]:
    a TypeError ([None]) on undefined and null, the same string otherwise. *)
Definition toString_method (v : JsVal) : option JsString :=
  match v with
  | JUndefined | JNull => None
  | _ => Some (ToString v)
  end.

Definition buildPutRequests_twin (validUsers : list RawRow)
    : option (list WriteRequest) :=
  mapM
    (λ user,
       userId ← toString_method (prop user "userId");
       Some
         {| PutRequest :=
              {| Item :=
                   <["userId" := AttrS (JString userId)]>
                   (<["name" := AttrS (prop user "name")]>
                   (<["email" := AttrS (prop user "email")]>
                   (<["profileImage" :=
                        AttrS (nullish_coalesce (prop user "profileImageUrl")
                                 (JString []))]> ∅))) |} |})
    validUsers.

(** ** The batch partitioner *)

Definition TABLE_NAME : string := "userTable".
Definition BATCH_SIZE : nat := 25.

(** A JavaScript array may have holes: [None] is a hole, read as undefined. *)
Definition array_get {A} (arr : list (option A)) (i : nat) : option A :=
  match arr !! i with
  | Some (Some x) => Some x
  | _ => None
  end.

(** [arr[i] = x]: in range it overwrites, past the end it extends the array,
    leaving holes below [i]. *)
Definition array_set {A} (arr : list (option A)) (i : nat) (x : A)
    : list (option A) :=
  if decide (i < length arr) then <[i := Some x]> arr
  else arr ++ replicate (i - length arr) None ++ [Some x].

(** [reduce] with an initial value: the callback sees the accumulator, the
    item and its index. *)
Fixpoint reduce_from {A B} (f : B → A → nat → B) (index : nat)
    (l : list A) (acc : B) : B :=
  match l with
  | [] => acc
  | item :: rest => reduce_from f (S index) rest (f acc item index)
  end.

Definition Array_reduce {A B} (f : B → A → nat → B) (l : list A) (init : B) : B :=
  reduce_from f 0 l init.

(** The callback of the partitioner. A chunk is an array, hence truthy, so
    [!acc[chunkIndex]] holds exactly where the slot reads undefined; after
    the assignment the slot holds a chunk, and [push] extends it in place. *)
Definition chunk_step {A} (acc : list (option (list A))) (item : A)
    (index : nat) : list (option (list A)) :=
  let chunkIndex := index / BATCH_SIZE in
  let acc :=
    match array_get acc chunkIndex with
    | None => array_set acc chunkIndex []
    | Some _ => acc
    end in
  match array_get acc chunkIndex with
  | Some chunk => array_set acc chunkIndex (chunk ++ [item])
  | None => acc
  end.

Definition batches {A} (putRequests : list A) : list (option (list A)) :=
  Array_reduce chunk_step putRequests [].

(** Contiguous chunking, as the specification words it. *)
Fixpoint chunks_fuel {A} (fuel size : nat) (l : list A) : list (list A) :=
  match fuel, l with
  | 0, _ => []
  | _, [] => []
  | S fuel', _ => take size l :: chunks_fuel fuel' size (drop size l)
  end.

Definition contiguous_chunks {A} (size : nat) (l : list A) : list (list A) :=
  chunks_fuel (length l) size l.

(** ** Effects: the console, the object storage and the store *)

(** What a collaborator may throw, the state of the world outside the
    process, and a decoded sheet are left open. *)
Variable Error : Type.
Variable World : Type.
Variable Sheet : Type.

Variable decodeURIComponent : JsString → Error + JsString.
Variable s3_send :
  JsString → JsString → World → (Error + Readable Error) * World.
Variable XLSX_read : Buffer → Error + Workbook Sheet.
Variable sheet_to_json : option Sheet → Error + list RawRow.
Variable dynamoDB_send :
  string → option (list WriteRequest) → World → (Error + unit) * World.

Inductive LogArg :=
| ArgError (err : Error)
| ArgStrings (l : list (option JsString)).

Inductive Level := LError | LWarn | LLog.

Inductive Event :=
| Console (level : Level) (message : JsString) (args : list LogArg)
| S3GetObject (Bucket Key : JsString)
| BatchWriteItem (table : string) (items : option (list WriteRequest)).

(** A computation runs from a world and the trace so far (oldest event
    first) and ends in a value or a thrown error. *)
Definition Run : Type := World * list Event.
Definition M (A : Type) : Type := Run → (Error + A) * Run.

Definition ret {A} (x : A) : M A := λ st, (inr x, st).

Definition bind {A B} (m : M A) (k : A → M B) : M B :=
  λ st,
    match m st with
    | (inl e, st') => (inl e, st')
    | (inr x, st') => k x st'
    end.

Definition lift_result {A} (r : Error + A) : M A := λ st, (r, st).

Definition try_catch {A} (m : M A) (h : Error → M A) : M A :=
  λ st,
    match m st with
    | (inl e, st') => h e st'
    | (inr x, st') => (inr x, st')
    end.

Definition emit (ev : Event) : M unit :=
  λ st, (inr tt, (st.1, st.2 ++ [ev])).

(** An awaited call: the request is issued, then the collaborator answers. *)
Definition call {A} (ev : Event) (f : World → (Error + A) * World) : M A :=
  λ st, let '(r, w) := f st.1 in (r, (w, st.2 ++ [ev])).

#[local] Instance M_ret : MRet M := @ret.
#[local] Instance M_bind : MBind M := λ A B k m, bind m k.

Definition console_error (message : string) (args : list LogArg) : M unit :=
  emit (Console LError (u16 message) args).
Definition console_warn (message : string) (args : list LogArg) : M unit :=
  emit (Console LWarn (u16 message) args).
Definition console_log (message : string) (args : list LogArg) : M unit :=
  emit (Console LLog (u16 message) args).

Definition streamToBuffer (stream : Readable Error) : Error + Buffer :=
  match stream_error stream with
  | Some e => inl e
  | None => inr (concat (chunks stream))
  end.

Fixpoint for_of {A} (l : list A) (body : A → M unit) : M unit :=
  match l with
  | [] => mret tt
  | x :: rest => body x ;; for_of rest body
  end.

Definition writeToDynamoDBInBatches (putRequests : list WriteRequest) : M unit :=
  for_of (batches putRequests)
    (λ batch, call (BatchWriteItem TABLE_NAME batch) (dynamoDB_send TABLE_NAME batch)).

(** [key.replace(/\+/g, " ")] *)
Definition replace_plus (key : JsString) : JsString :=
  (λ c, if (c =? 43)%N then 32%N else c) <$> key.

(** The [try] block of the handler. *)
Definition handler_try (event : S3Event) : M unit :=
  let record := head (Records event) in
  match record ≫= bucket_name, record ≫= object_key with
  | Some bucket, Some key0 =>
      if negb (ToBoolean (JString bucket)) || negb (ToBoolean (JString key0))
      then console_error "Invalid event format" []
      else
        key ← lift_result (decodeURIComponent (replace_plus key0));
        s3Object ← call (S3GetObject bucket key) (s3_send bucket key);
        buffer ← lift_result (streamToBuffer s3Object);
        workbook ← lift_result (XLSX_read buffer);
        match SheetNames workbook with
        | None | Some [] => console_error "No sheets found in Excel file." []
        | Some (first :: _) =>
            let sheet := Sheets workbook !! first in
            jsonData ← lift_result (sheet_to_json sheet);
            if Nat.eqb (length jsonData) 0
            then console_error "Excel sheet is empty." []
            else
              let '(validUsers, errors) := filter_validate jsonData 0 [] in
              if Nat.eqb (length validUsers) 0
              then console_warn "No valid records found." []
              else
                let putRequests := buildPutRequests validUsers in
                writeToDynamoDBInBatches putRequests ;;
                console_log
                  ("Uploaded " +:+ pretty (length putRequests)
                   +:+ " records to DynamoDB.") [] ;;
                if negb (Nat.eqb (length errors) 0)
                then console_warn
                       ("skipped " +:+ pretty (length errors) +:+ " rows:")
                       [ArgStrings errors]
                else mret tt
        end
  | _, _ => console_error "Invalid event format" []
  end.

Definition handler (event : S3Event) : M unit :=
  try_catch (handler_try event)
    (λ err, console_error "Lambda failed:" [ArgError err]).

(** The world after the store has answered the given batch writes in turn. *)
Definition world_after (sent : list (option (list WriteRequest))) (w : World)
    : World :=
  foldl (λ w batch, (dynamoDB_send TABLE_NAME batch w).2) w sent.

(** The fetch and the decoding succeed: the event names a bucket and a key,
    the object is fetched (leaving the world [w]) and decodes to the rows
    [jsonData] of its first sheet. *)
Definition decodes_to (event : S3Event) (st : Run) (bucket key : JsString)
    (w : World) (jsonData : list RawRow) : Prop :=
  ∃ key0 s3Object buffer workbook first others,
    head (Records event) ≫= bucket_name = Some bucket
    ∧ head (Records event) ≫= object_key = Some key0
    ∧ ToBoolean (JString bucket) = true
    ∧ ToBoolean (JString key0) = true
    ∧ decodeURIComponent (replace_plus key0) = inr key
    ∧ s3_send bucket key st.1 = (inr s3Object, w)
    ∧ streamToBuffer s3Object = inr buffer
    ∧ XLSX_read buffer = inr workbook
    ∧ SheetNames workbook = Some (first :: others)
    ∧ sheet_to_json (Sheets workbook !! first) = inr jsonData.

(** What the handler does once the rows are decoded. *)
Definition after_decoding (jsonData : list RawRow) : M unit :=
  if Nat.eqb (length jsonData) 0
  then console_error "Excel sheet is empty." []
  else
    let '(validUsers, errors) := filter_validate jsonData 0 [] in
    if Nat.eqb (length validUsers) 0
    then console_warn "No valid records found." []
    else
      let putRequests := buildPutRequests validUsers in
      writeToDynamoDBInBatches putRequests ;;
      console_log
        ("Uploaded " +:+ pretty (length putRequests)
         +:+ " records to DynamoDB.") [] ;;
      if negb (Nat.eqb (length errors) 0)
      then console_warn
             ("skipped " +:+ pretty (length errors) +:+ " rows:")
             [ArgStrings errors]
      else mret tt.

(** ** The properties, in the words of the specification *)

(** [local@domain.tld], every segment non-empty and free of spaces and [@]. *)
Definition email_shape (s : JsString) : Prop :=
  ∃ l d t,
    s = l ++ u16 "@" ++ d ++ u16 "." ++ t
    ∧ l ≠ [] ∧ d ≠ [] ∧ t ≠ []
    ∧ Forall (λ c, not_space_at c = true) l
    ∧ Forall (λ c, not_space_at c = true) d
    ∧ Forall (λ c, not_space_at c = true) t.

(** The email shape as the specification words it: the last segment is
    "one or more non-space characters". *)
Definition email_shape_as_stated (s : JsString) : Prop :=
  ∃ l d t,
    s = l ++ u16 "@" ++ d ++ u16 "." ++ t
    ∧ l ≠ [] ∧ d ≠ [] ∧ t ≠ []
    ∧ Forall (λ c, not_space_at c = true) l
    ∧ Forall (λ c, not_space_at c = true) d
    ∧ Forall (λ c, not_space c = true) t.

(** [http://] or [https://], then one or more non-space characters. *)
Definition url_shape (s : JsString) : Prop :=
  ∃ rest,
    rest ≠ [] ∧ Forall (λ c, not_space c = true) rest
    ∧ (s = u16 "http://" ++ rest ∨ s = u16 "https://" ++ rest).

(** The outcome of a rejected row. *)
Definition invalid (index : nat) (reason : string) : ValidationResult :=
  {| valid := false;
     error := Some (u16 ("Row " +:+ pretty (index + 2) +:+ ": " +:+ reason)) |}.

Definition accepted : ValidationResult := {| valid := true; error := None |}.

(** The failure conditions of the five checks, as the source writes them. *)
Definition userId_fails (user : RawRow) : bool :=
  negb (ToBoolean (prop user "userId"))
  || (negb (String.eqb (typeof (prop user "userId")) "string")
      && negb (String.eqb (typeof (prop user "userId")) "number")).

Definition name_fails (user : RawRow) : bool :=
  negb (ToBoolean (prop user "name"))
  || negb (String.eqb (typeof (prop user "name")) "string").

Definition email_fails (user : RawRow) : bool :=
  negb (ToBoolean (prop user "email"))
  || negb (String.eqb (typeof (prop user "email")) "string")
  || negb (isValidEmail (prop user "email")).

Definition profileImageUrl_fails (user : RawRow) : bool :=
  ToBoolean (prop user "profileImageUrl")
  && negb (isValidUrl (prop user "profileImageUrl")).

Definition checks (user : RawRow) : list (bool * string) :=
  [ (isRowEmpty user, "Empty row");
    (userId_fails user, "Missing or invalid 'userId'");
    (name_fails user, "Missing or invalid 'name'");
    (email_fails user, "Invalid 'email'");
    (profileImageUrl_fails user, "Invalid 'profileImageUrl'") ]%string.

(** The reason of the first check that fails, if any does. *)
Fixpoint first_failure (cs : list (bool * string)) : option string :=
  match cs with
  | [] => None
  | (fails, reason) :: rest => if fails then Some reason else first_failure rest
  end.

Definition is_zero_or_nan (n : spec_float) : bool :=
  match n with
  | S754_zero _ | S754_nan => true
  | _ => false
  end.

(** When the userId check rejects, as the specification words it: the
    field is absent, or neither a string nor a number, or the empty string. *)
Definition userId_rejected_as_stated (v : JsVal) : Prop :=
  v = JUndefined
  ∨ (typeof v ≠ "string" ∧ typeof v ≠ "number")
  ∨ v = JString [].

(** The same with the numbers the source also rejects: both zeros and NaN. *)
Definition userId_rejected (v : JsVal) : Prop :=
  userId_rejected_as_stated v
  ∨ ∃ n, v = JNumber n ∧ is_zero_or_nan n = true.

(** The email is present, a string, and of the shape of the source's pattern. *)
Definition email_accepted (v : JsVal) : Prop :=
  ∃ s, v = JString s ∧ email_shape s.

(** The shape of the accumulator: full chunks, then one that is not empty. *)
Definition full_then_last {A} (bs : list (list A)) : Prop :=
  bs = []
  ∨ ∃ init b,
      bs = init ++ [b]
      ∧ Forall (λ c, length c = BATCH_SIZE) init
      ∧ 0 < length b ≤ BATCH_SIZE.

(** ** The twin's handler *)

(** The JavaScript twin reads the first record with [event.Records?.[0]],
    which is undefined when the trigger has no [Records]. It decodes the
    sheet with the library's default options (the keys are the cells of the
    header row), so its decoder is another collaborator; its
    [buildPutRequests] throws the TypeError of a method call on undefined or
    null. *)
Variable sheet_to_json_default : option Sheet → Error + list RawRow.
Variable TypeError : Error.

Definition handler_twin_try (event : TwinEvent) : M unit :=
  let record := twin_Records event ≫= head in
  match record ≫= bucket_name, record ≫= object_key with
  | Some bucket, Some key0 =>
      if negb (ToBoolean (JString bucket)) || negb (ToBoolean (JString key0))
      then console_error "Invalid event format" []
      else
        key ← lift_result (decodeURIComponent (replace_plus key0));
        s3Object ← call (S3GetObject bucket key) (s3_send bucket key);
        buffer ← lift_result (streamToBuffer s3Object);
        workbook ← lift_result (XLSX_read buffer);
        match SheetNames workbook with
        | None | Some [] => console_error "No sheets found in Excel file." []
        | Some (first :: _) =>
            let sheet := Sheets workbook !! first in
            jsonData ← lift_result (sheet_to_json_default sheet);
            if Nat.eqb (length jsonData) 0
            then console_error "Excel sheet is empty." []
            else
              let '(validUsers, errors) := filter_validate jsonData 0 [] in
              if Nat.eqb (length validUsers) 0
              then console_warn "No valid records found." []
              else
                putRequests ←
                  lift_result
                    (match buildPutRequests_twin validUsers with
                     | Some requests => inr requests
                     | None => inl TypeError
                     end);
                writeToDynamoDBInBatches putRequests ;;
                console_log
                  ("Uploaded " +:+ pretty (length putRequests)
                   +:+ " records to DynamoDB.") [] ;;
                if negb (Nat.eqb (length errors) 0)
                then console_log
                       ("skipped " +:+ pretty (length errors)
                        +:+ " rows due to validation errors.") []
                else mret tt
        end
  | _, _ => console_error "Invalid event format" []
  end.

Definition handler_twin (event : TwinEvent) : M unit :=
  try_catch (handler_twin_try event)
    (λ err, console_error "Lambda failed:" [ArgError err]).

(** ** Further properties, in words *)

(** A userId the validator lets through: a non-empty string, or a number
    other than the zeros and NaN. *)
Definition userId_ok (v : JsVal) : Prop :=
  (∃ s, v = JString s ∧ s ≠ [])
  ∨ (∃ n, v = JNumber n ∧ is_zero_or_nan n = false).

(** A name the validator lets through: a non-empty string. *)
Definition name_ok (v : JsVal) : Prop := ∃ s, v = JString s ∧ s ≠ [].

(** A field of the trigger that is absent or the empty string. *)
Definition missing (o : option JsString) : Prop := o = None ∨ o = Some [].

(** The trigger names a bucket and a key, the key decodes, and the fetch
    answers with the object [s3Object], leaving the world [w]. *)
Definition fetches (event : S3Event) (st : Run) (bucket key : JsString)
    (w : World) (s3Object : Readable Error) : Prop :=
  ∃ key0,
    head (Records event) ≫= bucket_name = Some bucket
    ∧ head (Records event) ≫= object_key = Some key0
    ∧ ToBoolean (JString bucket) = true
    ∧ ToBoolean (JString key0) = true
    ∧ decodeURIComponent (replace_plus key0) = inr key
    ∧ s3_send bucket key st.1 = (inr s3Object, w).

(** The decoding of a fetched object throws [err]: while the stream is
    read, while the workbook is parsed, or while its first sheet is turned
    into rows. *)
Definition decoding_throws (s3Object : Readable Error) (err : Error) : Prop :=
  streamToBuffer s3Object = inl err
  ∨ (∃ buffer,
       streamToBuffer s3Object = inr buffer ∧ XLSX_read buffer = inl err)
  ∨ (∃ buffer workbook first others,
       streamToBuffer s3Object = inr buffer
       ∧ XLSX_read buffer = inr workbook
       ∧ SheetNames workbook = Some (first :: others)
       ∧ sheet_to_json (Sheets workbook !! first) = inl err).

(** The decoded workbook of a fetched object lists no sheet. *)
Definition decodes_without_sheets (s3Object : Readable Error) : Prop :=
  ∃ buffer workbook,
    streamToBuffer s3Object = inr buffer
    ∧ XLSX_read buffer = inr workbook
    ∧ (SheetNames workbook = None ∨ SheetNames workbook = Some []).

(** A line of the console, as opposed to a call of a collaborator. *)
Definition is_console (ev : Event) : Prop :=
  match ev with
  | Console _ _ _ => True
  | _ => False
  end.

(** ** Regular expressions: the matcher decides the language *)

Lemma nullable_Matches r : nullable r = true ↔ Matches r [].
Proof.
  induction r; simpl; split; intros H; try discriminate.
  - inversion H.
  - constructor.
  - done.
  - inversion H.
  - apply andb_true_iff in H as [H1 H2].
    change (@nil N) with (@nil N ++ []). constructor; tauto.
  - inversion H; subst.
    match goal with E : _ ++ _ = [] |- _ => apply app_eq_nil in E as [-> ->] end.
    apply andb_true_iff; tauto.
  - apply orb_true_iff in H as [H|H]; [apply MAltL|apply MAltR]; tauto.
  - apply orb_true_iff. inversion H; subst; tauto.
  - constructor.
  - done.
Qed.

Lemma Matches_Cat_inv r1 r2 s :
  Matches (Cat r1 r2) s →
  ∃ s1 s2, s = s1 ++ s2 ∧ Matches r1 s1 ∧ Matches r2 s2.
Proof. inversion 1; subst; eauto. Qed.

Lemma Matches_Star_cons r c s :
  Matches (Star r) (c :: s) →
  ∃ s1 s2, s = s1 ++ s2 ∧ Matches r (c :: s1) ∧ Matches (Star r) s2.
Proof.
  intros H. remember (Star r) as r' eqn:Hr. remember (c :: s) as t eqn:Ht.
  revert s Ht. induction H; intros s0 Ht; try discriminate.
  injection Hr as ->. destruct s1 as [|c' s1'].
  - simpl in Ht. apply IHMatches2; auto.
  - injection Ht as -> <-. exists s1', s2. auto.
Qed.

Lemma deriv_Matches c r s : Matches (deriv c r) s ↔ Matches r (c :: s).
Proof.
  revert s. induction r; intros s; simpl.
  - split; inversion 1.
  - split; inversion 1.
  - destruct (p c) eqn:Hp; split; intros H; inversion H; subst.
    + by constructor.
    + constructor.
    + congruence.
  - split.
    + intros H. destruct (nullable r1) eqn:Hn.
      * inversion H; subst.
        -- match goal with H1 : Matches (Cat _ _) _ |- _ => inversion H1; subst end.
           rewrite app_comm_cons. constructor; [by apply IHr1|done].
        -- change (c :: s) with ([] ++ c :: s).
           constructor; [by apply nullable_Matches|by apply IHr2].
      * inversion H; subst. rewrite app_comm_cons.
        constructor; [by apply IHr1|done].
    + intros H. apply Matches_Cat_inv in H as (s1 & s2 & Heq & H1 & H2).
      destruct s1 as [|c' s1'].
      * simpl in Heq. subst s2.
        apply nullable_Matches in H1. rewrite H1.
        apply MAltR. by apply IHr2.
      * injection Heq as <- ->.
        assert (Matches (Cat (deriv c r1) r2) (s1' ++ s2)) as Hc
          by (constructor; [by apply IHr1|done]).
        destruct (nullable r1); [by apply MAltL|done].
  - split; intros H; inversion H; subst.
    + apply MAltL. by apply IHr1.
    + apply MAltR. by apply IHr2.
    + apply MAltL. by apply IHr1.
    + apply MAltR. by apply IHr2.
  - split.
    + intros H. inversion H; subst. rewrite app_comm_cons.
      constructor; [by apply IHr|done].
    + intros H. apply Matches_Star_cons in H as (s1 & s2 & -> & H1 & H2).
      constructor; [by apply IHr|done].
Qed.

Lemma matches_Matches r s : matches r s = true ↔ Matches r s.
Proof.
  revert r. induction s as [|c s IH]; intros r; simpl.
  - apply nullable_Matches.
  - rewrite IH. apply deriv_Matches.
Qed.

Lemma Matches_Cat_iff r1 r2 s :
  Matches (Cat r1 r2) s ↔ ∃ s1 s2, s = s1 ++ s2 ∧ Matches r1 s1 ∧ Matches r2 s2.
Proof.
  split; [apply Matches_Cat_inv|].
  intros (s1 & s2 & -> & H1 & H2). by constructor.
Qed.

Lemma Matches_Class_iff p s : Matches (Class p) s ↔ ∃ c, s = [c] ∧ p c = true.
Proof.
  split.
  - inversion 1; subst; eauto.
  - intros (c & -> & Hc). by constructor.
Qed.

Lemma Matches_Chr_iff a s : Matches (Chr a) s ↔ s = [N_of_ascii a].
Proof.
  unfold Chr. rewrite Matches_Class_iff. split.
  - intros (c & -> & Hc). apply N.eqb_eq in Hc. by subst.
  - intros ->. eexists; split; [done|]. apply N.eqb_refl.
Qed.

Lemma Matches_Lit_iff str s : Matches (Lit str) s ↔ s = u16 str.
Proof.
  revert s. induction str as [|a str IH]; intros s; simpl.
  - split; [inversion 1; done|intros ->; constructor].
  - rewrite Matches_Cat_iff. split.
    + intros (s1 & s2 & -> & H1 & H2).
      apply Matches_Chr_iff in H1 as ->. apply IH in H2 as ->. done.
    + intros ->. exists [N_of_ascii a], (u16 str).
      split; [done|]. split; [by apply Matches_Chr_iff|by apply IH].
Qed.

Lemma Matches_Star_Class p s :
  Matches (Star (Class p)) s ↔ Forall (λ c, p c = true) s.
Proof.
  split.
  - intros H. remember (Star (Class p)) as r eqn:Hr.
    induction H; try discriminate; [constructor|].
    injection Hr as ->. apply Forall_app. split; [|auto].
    apply Matches_Class_iff in H as (c & -> & Hc). by constructor.
  - induction 1 as [|c s Hc _ IH]; [constructor|].
    change (c :: s) with ([c] ++ s). constructor; [by constructor|done].
Qed.

Lemma Matches_Plus_Class p s :
  Matches (Plus (Class p)) s ↔ s ≠ [] ∧ Forall (λ c, p c = true) s.
Proof.
  unfold Plus. rewrite Matches_Cat_iff. split.
  - intros (s1 & s2 & -> & H1 & H2).
    apply Matches_Class_iff in H1 as (c & -> & Hc).
    apply Matches_Star_Class in H2. split; [done|by constructor].
  - intros [Hne Hall]. destruct s as [|c s]; [done|].
    apply Forall_cons in Hall as [Hc Hall].
    exists [c], s. split; [done|].
    split; [by constructor|by apply Matches_Star_Class].
Qed.

Lemma email_regex_shape s : matches email_regex s = true ↔ email_shape s.
Proof.
  rewrite matches_Matches. unfold email_regex, email_shape.
  rewrite Matches_Cat_iff. split.
  - intros (l & s1 & -> & Hl & H1).
    apply Matches_Cat_iff in H1 as (a & s2 & -> & Ha & H2).
    apply Matches_Cat_iff in H2 as (d & s3 & -> & Hd & H3).
    apply Matches_Cat_iff in H3 as (dot & t & -> & Hdot & Ht).
    apply Matches_Chr_iff in Ha as ->. apply Matches_Chr_iff in Hdot as ->.
    apply Matches_Plus_Class in Hl as [? ?], Hd as [? ?], Ht as [? ?].
    exists l, d, t. done.
  - intros (l & d & t & -> & Hl & Hd & Ht & Fl & Fd & Ft).
    exists l, (u16 "@" ++ d ++ u16 "." ++ t). split; [done|].
    split; [by apply Matches_Plus_Class|].
    constructor; [by apply Matches_Chr_iff|].
    constructor; [by apply Matches_Plus_Class|].
    constructor; [by apply Matches_Chr_iff|by apply Matches_Plus_Class].
Qed.

Lemma url_regex_shape s : matches url_regex s = true ↔ url_shape s.
Proof.
  rewrite matches_Matches. unfold url_regex, url_shape.
  rewrite Matches_Cat_iff. split.
  - intros (h & s1 & -> & Hh & H1).
    apply Matches_Cat_iff in H1 as (o & s2 & -> & Ho & H2).
    apply Matches_Cat_iff in H2 as (c & rest & -> & Hc & Hrest).
    apply Matches_Lit_iff in Hh as ->. apply Matches_Lit_iff in Hc as ->.
    apply Matches_Plus_Class in Hrest as [? ?].
    exists rest. split; [done|]. split; [done|].
    inversion Ho; subst.
    + match goal with H : Matches (Chr _) _ |- _ =>
        apply Matches_Chr_iff in H as -> end.
      by right.
    + match goal with H : Matches Eps _ |- _ => inversion H; subst end.
      by left.
  - intros (rest & Hne & Hall & [-> | ->]).
    + exists (u16 "http"), (u16 "://" ++ rest). split; [done|].
      split; [by apply Matches_Lit_iff|].
      change (u16 "://" ++ rest) with ([] ++ u16 "://" ++ rest).
      constructor; [apply MAltR; constructor|].
      constructor; [by apply Matches_Lit_iff|by apply Matches_Plus_Class].
    + exists (u16 "http"), (u16 "s" ++ u16 "://" ++ rest). split; [done|].
      split; [by apply Matches_Lit_iff|].
      constructor; [apply MAltL; by apply Matches_Chr_iff|].
      constructor; [by apply Matches_Lit_iff|by apply Matches_Plus_Class].
Qed.

(** ** The row validator *)

Lemma u16_inj s t : u16 s = u16 t → s = t.
Proof.
  unfold u16. revert t. induction s as [|a s IH]; intros [|b t] H;
    simpl in H; try discriminate; [done|].
  injection H as Hab Hst. apply IH in Hst as ->.
  apply (f_equal ascii_of_N) in Hab. rewrite !ascii_N_embedding in Hab.
  by subst.
Qed.

Lemma append_inv_head (a b c : string) : a +:+ b = a +:+ c → b = c.
Proof. induction a as [|x a IH]; simpl; [done|]. intros [= H]. auto. Qed.

Lemma invalid_inj index r1 r2 : invalid index r1 = invalid index r2 → r1 = r2.
Proof.
  unfold invalid. intros [= H]. apply u16_inj in H.
  by do 3 apply append_inv_head in H.
Qed.

Lemma validateUser_checks user index :
  validateUser user index =
    match first_failure (checks user) with
    | Some reason => invalid index reason
    | None => accepted
    end.
Proof.
  unfold validateUser, checks, first_failure.
  unfold userId_fails, name_fails, email_fails, profileImageUrl_fails.
  repeat match goal with
         | |- context [if ?b then _ else _] => destruct b
         end; reflexivity.
Qed.

Lemma validateUser_reason user index reason :
  validateUser user index = invalid index reason
  ↔ first_failure (checks user) = Some reason.
Proof.
  rewrite validateUser_checks. destruct (first_failure (checks user)) as [r|].
  - split; [intros H; by apply invalid_inj in H as ->|by intros [= ->]].
  - split; discriminate.
Qed.

Lemma validateUser_accepted user index :
  validateUser user index = accepted ↔ first_failure (checks user) = None.
Proof.
  rewrite validateUser_checks. destruct (first_failure (checks user)); split;
    discriminate || done.
Qed.

Lemma strict_equal_null v : strict_equal v JNull = true ↔ v = JNull.
Proof. destruct v; simpl; split; congruence. Qed.

Lemma strict_equal_undefined v : strict_equal v JUndefined = true ↔ v = JUndefined.
Proof. destruct v; simpl; split; congruence. Qed.

Lemma strict_equal_empty_string v : strict_equal v (JString []) = true ↔ v = JString [].
Proof.
  destruct v; simpl; try (split; congruence).
  unfold code_units_eqb. rewrite bool_decide_eq_true. split; congruence.
Qed.

Lemma isRowEmpty_iff (row : RawRow) :
  isRowEmpty row = true
  ↔ map_Forall (λ _ v, v = JNull ∨ v = JUndefined ∨ v = JString []) row.
Proof.
  unfold isRowEmpty, Object_values.
  rewrite map_Forall_to_list, forallb_forall. rewrite Forall_forall.
  split.
  - intros H [k v] Hin. simpl.
    assert (In v (map_to_list row).*2) as Hv.
    { apply list_elem_of_In, list_elem_of_fmap. by exists (k, v). }
    apply H in Hv. rewrite !orb_true_iff in Hv.
    rewrite strict_equal_null, strict_equal_undefined,
      strict_equal_empty_string in Hv.
    destruct Hv as [[?|?]|?]; auto.
  - intros H v Hin.
    apply list_elem_of_In, list_elem_of_fmap in Hin as ([k v'] & -> & Hin).
    apply H in Hin. simpl in Hin. rewrite !orb_true_iff.
    rewrite strict_equal_null, strict_equal_undefined,
      strict_equal_empty_string.
    destruct Hin as [?|[?|?]]; auto.
Qed.

Lemma userId_fails_iff (user : RawRow) :
  userId_fails user = true ↔ userId_rejected (prop user "userId").
Proof.
  unfold userId_fails, userId_rejected, userId_rejected_as_stated.
  destruct (prop user "userId") as [| |b|n|s]; simpl.
  - split; [intros _; by do 2 left|done].
  - split; [intros _|done]. left. right. left. split; discriminate.
  - rewrite orb_true_r. split; [intros _|done].
    left. right. left. split; discriminate.
  - rewrite orb_false_r. destruct n; simpl; (split; [|try done]);
      try discriminate; try (intros _; right; eexists; split; done).
    + intros [[?|[[_ ?]|?]]|(n & [= <-] & ?)]; done.
    + intros [[?|[[_ ?]|?]]|(n & [= <-] & ?)]; done.
  - rewrite orb_false_r. destruct s; simpl; (split; [|try done]);
      try discriminate.
    + intros _. left. right. by right.
    + intros [[?|[[? _]|?]]|(n0 & ? & ?)]; done.
Qed.

Lemma email_fails_iff (user : RawRow) :
  email_fails user = false ↔ email_accepted (prop user "email").
Proof.
  unfold email_fails, email_accepted, isValidEmail, RegExp_test.
  destruct (prop user "email") as [| |b|n|s]; simpl;
    try (split; [discriminate|intros (? & ? & _); discriminate]).
  - rewrite orb_true_r. simpl.
    split; [discriminate|intros (? & ? & _); discriminate].
  - rewrite orb_true_r. simpl.
    split; [discriminate|intros (? & ? & _); discriminate].
  - rewrite orb_false_r. destruct (matches email_regex s) eqn:Hm.
    + apply email_regex_shape in Hm. rewrite orb_false_r.
      split; [eauto|]. intros _.
      destruct Hm as (l & d & t & -> & Hl & _). by destruct l.
    + rewrite orb_true_r. split; [discriminate|].
      intros (s' & [= <-] & Hs). apply email_regex_shape in Hs. congruence.
Qed.

Lemma first_failure_userId (user : RawRow) :
  isRowEmpty user = false →
  first_failure (checks user) = Some "Missing or invalid 'userId'"%string
  ↔ userId_fails user = true.
Proof.
  intros Hne. unfold checks. simpl. rewrite Hne.
  destruct (userId_fails user); [done|].
  destruct (name_fails user), (email_fails user), (profileImageUrl_fails user);
    split; discriminate.
Qed.

Lemma first_failure_email (user : RawRow) :
  isRowEmpty user = false → userId_fails user = false → name_fails user = false →
  first_failure (checks user) = Some "Invalid 'email'"%string
  ↔ email_fails user = true.
Proof.
  intros Hne Hid Hname. unfold checks. simpl. rewrite Hne, Hid, Hname.
  destruct (email_fails user); [done|].
  destruct (profileImageUrl_fails user); split; discriminate.
Qed.

Lemma first_failure_profileImageUrl (user : RawRow) :
  isRowEmpty user = false → userId_fails user = false → name_fails user = false →
  email_fails user = false →
  first_failure (checks user) =
    if profileImageUrl_fails user
    then Some "Invalid 'profileImageUrl'"%string else None.
Proof.
  intros Hne Hid Hname Hemail. unfold checks. simpl.
  by rewrite Hne, Hid, Hname, Hemail.
Qed.

(** C2, as the source has it: a row that is not empty is rejected with
    "Missing or invalid 'userId'" exactly when its userId is absent, is
    neither a string nor a number, is the empty string, or is one of the
    numbers 0, -0 and NaN; a userId that is any other number passes the
    check. *)
Theorem userId_check_rejects_iff (user : RawRow) (index : nat) :
  isRowEmpty user = false →
  (validateUser user index = invalid index "Missing or invalid 'userId'"
   ↔ userId_rejected (prop user "userId"))
  ∧ (∀ n, prop user "userId" = JNumber n → is_zero_or_nan n = false →
          validateUser user index ≠ invalid index "Missing or invalid 'userId'").
Proof.
  intros Hne. split.
  - by rewrite validateUser_reason, first_failure_userId, userId_fails_iff.
  - intros n Hn Hz H.
    apply validateUser_reason, first_failure_userId, userId_fails_iff in H; [|done].
    rewrite Hn in H.
    destruct H as [[?|[[_ ?]|?]]|(n' & [= <-] & ?)]; done || congruence.
Qed.

(** C3, as the source has it: a row that reaches the email check passes it
    exactly when its email is a string of the shape local, [@], domain,
    [.], tld, where each of the three segments is one or more characters that
    are neither space nor [@]; otherwise the row is rejected with "Invalid
    'email'". "foo@bar.com" has the shape and "foo@bar" has not. *)
Theorem email_check_passes_iff (user : RawRow) (index : nat) :
  isRowEmpty user = false → userId_fails user = false → name_fails user = false →
  (validateUser user index ≠ invalid index "Invalid 'email'"
   ↔ email_accepted (prop user "email"))
  ∧ (¬ email_accepted (prop user "email") →
     validateUser user index = invalid index "Invalid 'email'")
  ∧ (email_accepted (prop user "email") →
     validateUser user index =
       if profileImageUrl_fails user
       then invalid index "Invalid 'profileImageUrl'" else accepted)
  ∧ email_accepted (JString (u16 "foo@bar.com"))
  ∧ ¬ email_accepted (JString (u16 "foo@bar")).
Proof.
  intros Hne Hid Hname.
  rewrite validateUser_reason, first_failure_email, <- email_fails_iff by done.
  split; [|split; [|split; [|split]]].
  - by destruct (email_fails user).
  - intros H. by destruct (email_fails user).
  - intros H. rewrite validateUser_checks, first_failure_profileImageUrl by done.
    by destruct (profileImageUrl_fails user).
  - eexists. split; [done|]. by apply email_regex_shape.
  - intros (s & [= <-] & Hs). by apply email_regex_shape in Hs.
Qed.

(** C4: the five checks run in the order emptiness, userId, name, email,
    profileImageUrl and the first that fails alone gives the reason; a row
    whose every field is null, undefined or the empty string is an "Empty
    row" whatever else is wrong with it; the message of a rejected row is
    "Row {index+2}: {reason}", which for the row at position 0 reads "Row 2". *)
Theorem validateUser_first_failing_check (user : RawRow) (index : nat) :
  validateUser user index =
    match first_failure (checks user) with
    | Some reason => invalid index reason
    | None => accepted
    end
  ∧ (map_Forall (λ _ v, v = JNull ∨ v = JUndefined ∨ v = JString []) user →
     validateUser user index = invalid index "Empty row")
  ∧ (valid (validateUser user index) = false →
     ∃ reason,
       error (validateUser user index)
       = Some (u16 ("Row " +:+ pretty (index + 2) +:+ ": " +:+ reason)))
  ∧ (∀ reason,
       invalid 0 reason
       = {| valid := false; error := Some (u16 ("Row 2: " +:+ reason)) |}).
Proof.
  split; [apply validateUser_checks|]. split; [|split].
  - intros H. apply isRowEmpty_iff in H.
    apply validateUser_reason. unfold checks. simpl. by rewrite H.
  - rewrite validateUser_checks.
    destruct (first_failure (checks user)) as [reason|]; [|done].
    intros _. by exists reason.
  - done.
Qed.

(** C5: for a row that reaches the profileImageUrl check, an absent or
    falsy field skips the check and the row is accepted; a truthy field is
    accepted exactly when its string is [http://] or [https://] followed by
    one or more non-space characters, and rejected with "Invalid
    'profileImageUrl'" otherwise; "ftp://x.com" has not that shape. *)
Theorem profileImageUrl_check (user : RawRow) (index : nat) :
  isRowEmpty user = false → userId_fails user = false → name_fails user = false →
  email_fails user = false →
  (ToBoolean (prop user "profileImageUrl") = false →
   validateUser user index = accepted)
  ∧ (ToBoolean (prop user "profileImageUrl") = true →
     (validateUser user index = accepted
      ↔ url_shape (ToString (prop user "profileImageUrl")))
     ∧ (¬ url_shape (ToString (prop user "profileImageUrl")) →
        validateUser user index = invalid index "Invalid 'profileImageUrl'"))
  ∧ ¬ url_shape (u16 "ftp://x.com").
Proof.
  intros Hne Hid Hname Hemail.
  rewrite validateUser_checks, first_failure_profileImageUrl by done.
  unfold profileImageUrl_fails, isValidUrl, RegExp_test.
  split; [|split].
  - by intros ->.
  - intros ->. simpl.
    destruct (matches url_regex (ToString (prop user "profileImageUrl"))) eqn:Hm;
      simpl.
    + apply url_regex_shape in Hm. split; [done|]. by intros [].
    + split.
      * split; [done|]. intros Hs. apply url_regex_shape in Hs. congruence.
      * done.
  - intros Hs. by apply url_regex_shape in Hs.
Qed.

(** ** The validation pass *)

Lemma filter_validate_from (jsonData : list RawRow) (i : nat)
    (errors : list (option JsString)) :
  filter_validate jsonData i errors =
    ((filter (λ p, valid (validateUser p.2 p.1) = true)
        (imap (λ j user, (i + j, user)) jsonData)).*2,
     errors ++
       ((λ p, error (validateUser p.2 p.1)) <$>
          filter (λ p, valid (validateUser p.2 p.1) = false)
            (imap (λ j user, (i + j, user)) jsonData))).
Proof.
  revert i errors. induction jsonData as [|user rest IH]; intros i errors.
  - simpl. by rewrite app_nil_r.
  - simpl. rewrite IH.
    rewrite (imap_ext (λ j user0, (S i + j, user0))
               ((λ j user0, (i + j, user0)) ∘ S) rest)
      by (intros; simpl; f_equal; lia).
    rewrite !filter_cons. simpl. rewrite Nat.add_0_r.
    destruct (valid (validateUser user i)) eqn:Hv.
    + rewrite decide_True by done. rewrite decide_False by done. done.
    + rewrite decide_False by done. rewrite decide_True by done.
      simpl. by rewrite <- app_assoc.
Qed.

Lemma filter_validate_lengths (jsonData : list RawRow) (i : nat)
    (errors : list (option JsString)) :
  length (filter_validate jsonData i errors).1
  + length (filter_validate jsonData i errors).2
  = length jsonData + length errors.
Proof.
  revert i errors. induction jsonData as [|user rest IH]; intros i errors;
    [done|].
  simpl.
  specialize (IH (S i)
    (if valid (validateUser user i) then errors
     else errors ++ [error (validateUser user i)])).
  destruct (filter_validate rest (S i) _) as [validUsers errors'].
  simpl in IH |- *.
  destruct (valid (validateUser user i)); simpl; [lia|].
  rewrite length_app in IH. simpl in IH. lia.
Qed.

Lemma filter_validate_all_invalid (jsonData : list RawRow) (i : nat)
    (errors : list (option JsString)) :
  (∀ j user, jsonData !! j = Some user →
             valid (validateUser user (i + j)) = false) →
  (filter_validate jsonData i errors).1 = [].
Proof.
  revert i errors. induction jsonData as [|user rest IH]; intros i errors H;
    [done|].
  simpl. pose proof (H 0 user eq_refl) as H0. rewrite Nat.add_0_r in H0.
  rewrite H0.
  specialize (IH (S i) (errors ++ [error (validateUser user i)])).
  destruct (filter_validate rest (S i) _) as [validUsers errors'].
  simpl in IH |- *. apply IH. intros j u Hj.
  replace (S (i + j)) with (i + S j) by lia. by apply H.
Qed.

Lemma imap_index_snd {A} (l : list A) (k : nat) :
  (imap (λ j u, (k + j, u)) l).*2 = l.
Proof.
  revert k. induction l as [|u l IH]; intros k; [done|]. simpl. f_equal.
  rewrite (imap_ext _ (λ j u0, (S k + j, u0))) by (intros; simpl; f_equal; lia).
  apply IH.
Qed.

(** C6: the validation pass gives every row exactly one outcome. The valid
    users are the rows whose outcome is valid and the errors are the
    diagnostics of the other rows, each list in the order of the input;
    their lengths add up to the number of rows, and every entry of the
    error list is a diagnostic string. *)
Theorem validation_pass_partitions_rows (jsonData : list RawRow) :
  let indexed := imap (λ j user, (j, user)) jsonData in
  let validUsers := (filter_validate jsonData 0 []).1 in
  let errors := (filter_validate jsonData 0 []).2 in
  validUsers = (filter (λ p, valid (validateUser p.2 p.1) = true) indexed).*2
  ∧ errors =
      (λ p, error (validateUser p.2 p.1)) <$>
        filter (λ p, valid (validateUser p.2 p.1) = false) indexed
  ∧ length validUsers + length errors = length jsonData
  ∧ validUsers `sublist_of` jsonData
  ∧ Forall (λ e, is_Some e) errors.
Proof.
  intros indexed validUsers errors. subst validUsers errors.
  rewrite filter_validate_from. simpl. fold indexed.
  split; [done|]. split; [done|]. split; [|split].
  - rewrite !length_fmap.
    assert (length indexed = length jsonData) as <-
      by (unfold indexed; apply length_imap).
    clear. induction indexed as [|p l IH]; [done|].
    rewrite !filter_cons.
    destruct (valid (validateUser p.2 p.1)) eqn:Hv.
    + rewrite decide_True by done. rewrite decide_False by done. simpl. lia.
    + rewrite decide_False by done. rewrite decide_True by done. simpl. lia.
  - pose proof (imap_index_snd jsonData 0) as Hj. simpl in Hj.
    fold indexed in Hj.
    pose proof (fmap_sublist snd _ _
      (sublist_filter (λ p, valid (validateUser p.2 p.1) = true) indexed)) as Hs.
    by rewrite Hj in Hs.
  - apply Forall_fmap, Forall_forall. intros p Hp.
    apply list_elem_of_filter in Hp as [Hp _]. simpl.
    rewrite validateUser_checks in Hp |- *.
    by destruct (first_failure (checks p.2)).
Qed.

(** ** The batch partitioner *)

Lemma BATCH_SIZE_pos : 0 < BATCH_SIZE.
Proof. unfold BATCH_SIZE. lia. Qed.

Lemma BATCH_SIZE_eq : BATCH_SIZE = 25.
Proof. reflexivity. Qed.

#[local] Opaque BATCH_SIZE.

Lemma array_get_dense {A} (bs : list A) (i : nat) :
  array_get (Some <$> bs) i = bs !! i.
Proof. unfold array_get. rewrite list_lookup_fmap. by destruct (bs !! i). Qed.

Lemma array_set_dense_end {A} (bs : list A) (x : A) :
  array_set (Some <$> bs) (length bs) x = Some <$> (bs ++ [x]).
Proof.
  unfold array_set. rewrite length_fmap.
  rewrite decide_False by lia. rewrite Nat.sub_diag. simpl.
  by rewrite fmap_app.
Qed.

Lemma array_set_dense_in {A} (bs : list A) (i : nat) (x : A) :
  i < length bs → array_set (Some <$> bs) i x = Some <$> <[i := x]> bs.
Proof.
  intros Hi. unfold array_set. rewrite length_fmap.
  rewrite decide_True by done. by rewrite list_fmap_insert.
Qed.

(** What one step of the reduction does to an array without holes. *)
Lemma chunk_step_extend {A} (bs : list (list A)) (item : A) (index : nat) :
  index / BATCH_SIZE = length bs →
  chunk_step (Some <$> bs) item index = Some <$> (bs ++ [[item]]).
Proof.
  intros Hq. unfold chunk_step. rewrite Hq.
  rewrite array_get_dense, lookup_ge_None_2 by done.
  rewrite array_set_dense_end, array_get_dense.
  rewrite lookup_app_r, Nat.sub_diag by done. simpl.
  rewrite array_set_dense_in by (rewrite length_app; simpl; lia).
  f_equal.
  rewrite (insert_app_r_alt bs [[]] (length bs)) by done.
  by rewrite Nat.sub_diag.
Qed.

Lemma chunk_step_push {A} (init : list (list A)) (b : list A) (item : A)
    (index : nat) :
  index / BATCH_SIZE = length init →
  chunk_step (Some <$> (init ++ [b])) item index
  = Some <$> (init ++ [b ++ [item]]).
Proof.
  intros Hq. unfold chunk_step. rewrite Hq.
  rewrite array_get_dense.
  rewrite lookup_app_r, Nat.sub_diag by done. simpl.
  rewrite array_get_dense.
  rewrite lookup_app_r, Nat.sub_diag by done. simpl.
  rewrite array_set_dense_in by (rewrite length_app; simpl; lia).
  f_equal.
  rewrite (insert_app_r_alt init [b] (length init)) by done.
  by rewrite Nat.sub_diag.
Qed.

Lemma length_concat_full {A} (init : list (list A)) :
  Forall (λ c, length c = BATCH_SIZE) init →
  length (concat init) = length init * BATCH_SIZE.
Proof.
  induction 1 as [|c init Hc _ IH]; simpl; [lia|].
  rewrite length_app, IH, Hc. lia.
Qed.

Lemma chunk_step_invariant {A} (bs : list (list A)) (item : A) :
  full_then_last bs →
  ∃ bs',
    chunk_step (Some <$> bs) item (length (concat bs)) = Some <$> bs'
    ∧ concat bs' = concat bs ++ [item]
    ∧ full_then_last bs'.
Proof.
  pose proof BATCH_SIZE_pos as Hpos.
  intros [->|(init & b & -> & Hfull & Hb)].
  - exists [[item]]. split; [|split].
    + apply (chunk_step_extend []). simpl. by apply Nat.div_small.
    + done.
    + right. exists [], [item]. simpl. split; [done|]. split; [done|lia].
  - assert (length (concat (init ++ [b]))
            = length b + length init * BATCH_SIZE) as Hlen.
    { rewrite concat_app, length_app, length_concat_full by done.
      simpl. rewrite app_nil_r. lia. }
    rewrite Hlen.
    destruct (decide (length b < BATCH_SIZE)) as [Hlt|Hge].
    + exists (init ++ [b ++ [item]]). split; [|split].
      * apply chunk_step_push.
        rewrite Nat.div_add by lia. rewrite Nat.div_small by done. lia.
      * rewrite !concat_app. simpl. by rewrite !app_nil_r, app_assoc.
      * right. exists init, (b ++ [item]). split; [done|]. split; [done|].
        rewrite length_app. simpl. lia.
    + exists ((init ++ [b]) ++ [[item]]). split; [|split].
      * apply chunk_step_extend.
        assert (length b = BATCH_SIZE) as -> by lia.
        replace (BATCH_SIZE + length init * BATCH_SIZE)
          with (0 + (S (length init)) * BATCH_SIZE) by lia.
        rewrite Nat.div_add by lia. rewrite Nat.div_small by done.
        rewrite length_app. simpl. lia.
      * rewrite (concat_app (init ++ [b])). done.
      * right. exists (init ++ [b]), [item]. split; [done|]. split.
        -- apply Forall_app. split; [done|]. constructor; [lia|done].
        -- simpl. lia.
Qed.

Lemma reduce_chunk_step_invariant {A} (rest : list A) (bs : list (list A)) :
  full_then_last bs →
  ∃ bs',
    reduce_from chunk_step (length (concat bs)) rest (Some <$> bs) = Some <$> bs'
    ∧ concat bs' = concat bs ++ rest
    ∧ full_then_last bs'.
Proof.
  revert bs. induction rest as [|item rest IH]; intros bs Hbs.
  - exists bs. simpl. by rewrite app_nil_r.
  - simpl.
    destruct (chunk_step_invariant bs item Hbs) as (bs1 & -> & Hcat & Hbs1).
    destruct (IH bs1 Hbs1) as (bs' & Hred & Hcat' & Hbs').
    exists bs'. rewrite Hcat in Hred, Hcat'. rewrite length_app in Hred.
    simpl in Hred. rewrite Nat.add_1_r in Hred.
    split; [done|]. split; [|done]. by rewrite Hcat', <- app_assoc.
Qed.

Lemma lookup_concat_chunks {A} (init : list (list A)) (b : list A) (i : nat) :
  Forall (λ c, length c = BATCH_SIZE) init → length b ≤ BATCH_SIZE →
  concat (init ++ [b]) !! i
  = (init ++ [b]) !! (i / BATCH_SIZE) ≫= (.!! (i `mod` BATCH_SIZE)).
Proof.
  pose proof BATCH_SIZE_pos as Hpos. intros Hfull Hb. revert i.
  induction Hfull as [|c init Hc _ IH]; intros i.
  - simpl. rewrite app_nil_r. destruct (decide (i < BATCH_SIZE)) as [Hi|Hi].
    + by rewrite Nat.div_small, Nat.mod_small by done.
    + rewrite lookup_ge_None_2 by lia.
      assert (1 ≤ i / BATCH_SIZE) by (apply Nat.div_le_lower_bound; lia).
      destruct (i / BATCH_SIZE); [lia|done].
  - simpl. destruct (decide (i < BATCH_SIZE)) as [Hi|Hi].
    + rewrite lookup_app_l by lia.
      by rewrite Nat.div_small, Nat.mod_small by done.
    + rewrite lookup_app_r by lia. rewrite Hc, IH.
      remember (i - BATCH_SIZE) as j eqn:Hj.
      assert (i = j + 1 * BATCH_SIZE) as -> by lia.
      rewrite Nat.div_add, Nat.Div0.mod_add by lia.
      by rewrite Nat.add_1_r.
Qed.

Lemma chunks_fuel_nil {A} (fuel size : nat) : chunks_fuel fuel size (@nil A) = [].
Proof. by destruct fuel. Qed.

Lemma chunks_fuel_S {A} (fuel size : nat) (l : list A) :
  l ≠ [] →
  chunks_fuel (S fuel) size l = take size l :: chunks_fuel fuel size (drop size l).
Proof. by destruct l. Qed.

Lemma chunks_fuel_full_then_last {A} (init : list (list A)) (b : list A)
    (fuel : nat) :
  Forall (λ c, length c = BATCH_SIZE) init → 0 < length b ≤ BATCH_SIZE →
  length (concat (init ++ [b])) ≤ fuel →
  chunks_fuel fuel BATCH_SIZE (concat (init ++ [b])) = init ++ [b].
Proof.
  pose proof BATCH_SIZE_pos as Hpos. intros Hfull Hb. revert fuel.
  induction Hfull as [|c init Hc _ IH]; intros fuel Hfuel.
  - simpl in Hfuel |- *. rewrite app_nil_r in Hfuel |- *.
    destruct fuel as [|fuel]; [lia|].
    rewrite chunks_fuel_S by (intros ->; simpl in Hb; lia).
    rewrite take_ge, drop_ge by lia. by rewrite chunks_fuel_nil.
  - simpl in Hfuel |- *. rewrite length_app in Hfuel.
    destruct fuel as [|fuel]; [lia|].
    rewrite chunks_fuel_S by (intros Hnil; apply app_eq_nil in Hnil as [-> _];
                              simpl in Hc; lia).
    rewrite take_app_length', drop_app_length' by done.
    rewrite IH by lia. done.
Qed.

Lemma full_then_last_chunks {A} (bs : list (list A)) :
  full_then_last bs → contiguous_chunks BATCH_SIZE (concat bs) = bs.
Proof.
  unfold contiguous_chunks. intros [->|(init & b & -> & Hfull & Hb)].
  - done.
  - by apply chunks_fuel_full_then_last.
Qed.

Lemma full_then_last_sizes_52 {A} (bs : list (list A)) :
  full_then_last bs → length (concat bs) = 52 → length <$> bs = [25; 25; 2].
Proof.
  intros [->|(init & b & -> & Hfull & Hb)]; [done|].
  rewrite concat_app, length_app, length_concat_full by done.
  simpl. rewrite app_nil_r.
  rewrite BATCH_SIZE_eq in Hb, Hfull |- *. intros H52.
  destruct init as [|c1 [|c2 [|c3 init]]]; simpl in H52 |- *; try lia.
  apply Forall_cons in Hfull as [H1 Hfull]. apply Forall_cons in Hfull as [H2 _].
  rewrite H1, H2. repeat f_equal. lia.
Qed.

(** C1: the partitioner chunks its input contiguously. Its array of
    batches has no hole and is the contiguous chunking of the input by 25:
    the item at index [i] sits in batch [i / 25] at place [i mod 25], the
    batches concatenated give back the input, every batch holds between 1
    and 25 items and every batch but the last holds 25; 52 items give
    batches of sizes 25, 25 and 2, and no item gives no batch. *)
Theorem batches_contiguous_chunking {A} (items : list A) :
  let bs := contiguous_chunks BATCH_SIZE items in
  BATCH_SIZE = 25
  ∧ batches items = Some <$> bs
  ∧ concat bs = items
  ∧ (∀ i, items !! i = bs !! (i / BATCH_SIZE) ≫= (.!! (i `mod` BATCH_SIZE)))
  ∧ Forall (λ b, 0 < length b ≤ BATCH_SIZE) bs
  ∧ (∀ k b, bs !! k = Some b → S k < length bs → length b = BATCH_SIZE)
  ∧ (length items = 52 → length <$> bs = [25; 25; 2])
  ∧ batches (@nil A) = [].
Proof.
  intros bs. pose proof BATCH_SIZE_pos as Hpos.
  destruct (reduce_chunk_step_invariant items [] (or_introl eq_refl))
    as (bs' & Hred & Hcat & Hshape).
  simpl in Hred, Hcat. subst items.
  assert (bs = bs') as -> by (by apply full_then_last_chunks).
  split; [apply BATCH_SIZE_eq|]. split; [done|]. split; [done|].
  split; [|split; [|split; [|split; [|done]]]].
  - intros i. destruct Hshape as [->|(init & b & -> & Hfull & Hb)].
    + simpl. by destruct (i / BATCH_SIZE).
    + apply lookup_concat_chunks; [done|lia].
  - destruct Hshape as [->|(init & b & -> & Hfull & Hb)]; [done|].
    apply Forall_app. split; [|by constructor].
    eapply Forall_impl; [done|]. simpl. intros c ->. lia.
  - intros k b Hk Hlt. destruct Hshape as [->|(init & b' & -> & Hfull & Hb)];
      [done|].
    rewrite length_app in Hlt. simpl in Hlt.
    rewrite lookup_app_l in Hk by lia.
    by apply (Forall_lookup_1 _ _ _ _ Hfull Hk).
  - by apply full_then_last_sizes_52.
Qed.

(** ** Store items *)

Lemma valid_userId_stringifies (user : RawRow) (index : nat) :
  valid (validateUser user index) = true →
  toString_method (prop user "userId") = Some (ToString (prop user "userId")).
Proof.
  rewrite validateUser_checks. unfold checks. simpl.
  destruct (isRowEmpty user); [done|].
  unfold userId_fails.
  by destruct (prop user "userId").
Qed.

(** C10: for valid users, the item built for the user at position [i]
    carries the image under the attribute [profileImage] and has no
    attribute [profileImageUrl]; the attribute holds the empty string when
    the user has no profileImageUrl (undefined or null) and the cell itself
    when the user has one, so a URL string is stored as that string;
    [userId] holds the string conversion of the user's userId, a string
    unchanged and a number through Number::toString, and the twin's
    [toString] builds the same items. *)
Theorem buildPutRequests_attributes (validUsers : list RawRow) (i : nat)
    (user : RawRow) :
  Forall (λ u, ∃ index, valid (validateUser u index) = true) validUsers →
  validUsers !! i = Some user →
  ∃ item,
    buildPutRequests validUsers !! i = Some {| PutRequest := {| Item := item |} |}
    ∧ buildPutRequests_twin validUsers = Some (buildPutRequests validUsers)
    ∧ dom item = list_to_set ["userId"; "name"; "email"; "profileImage"]%string
    ∧ item !! "profileImageUrl" = None
    ∧ (prop user "profileImageUrl" = JUndefined ∨ prop user "profileImageUrl" = JNull →
       item !! "profileImage" = Some (AttrS (JString [])))
    ∧ (prop user "profileImageUrl" ≠ JUndefined →
       prop user "profileImageUrl" ≠ JNull →
       item !! "profileImage" = Some (AttrS (prop user "profileImageUrl")))
    ∧ (∀ url, prop user "profileImageUrl" = JString url →
              item !! "profileImage" = Some (AttrS (JString url)))
    ∧ item !! "userId" = Some (AttrS (JString (ToString (prop user "userId"))))
    ∧ (∀ s, prop user "userId" = JString s →
            item !! "userId" = Some (AttrS (JString s)))
    ∧ (∀ n, prop user "userId" = JNumber n →
            item !! "userId" = Some (AttrS (JString (NumberToString n)))).
Proof.
  intros Hvalid Hi. eexists. split.
  { unfold buildPutRequests. rewrite list_lookup_fmap, Hi. reflexivity. }
  split.
  { clear Hi. unfold buildPutRequests_twin, buildPutRequests.
    induction Hvalid as [|u l [index Hu] _ IH]; [done|].
    rewrite fmap_cons. cbn [mapM]. rewrite IH.
    by rewrite (valid_userId_stringifies u index Hu). }
  split.
  { rewrite !dom_insert_L, dom_empty_L. simpl. set_solver. }
  split; [by simplify_map_eq|].
  split.
  { intros [H|H]; rewrite H; by simplify_map_eq. }
  split.
  { intros Hu Hn. simplify_map_eq.
    by destruct (prop user "profileImageUrl"). }
  split.
  { intros url Hurl. rewrite Hurl. by simplify_map_eq. }
  split; [by simplify_map_eq|].
  split; intros x Hx; rewrite Hx; by simplify_map_eq.
Qed.

(** ** The orchestrator *)

Lemma for_of_cons {A} (x : A) (rest : list A) (body : A → M unit) (st : Run) :
  for_of (x :: rest) body st =
    match body x st with
    | (inl e, st') => (inl e, st')
    | (inr _, st') => for_of rest body st'
    end.
Proof. reflexivity. Qed.

Lemma send_loop_throws (bs : list (option (list WriteRequest))) :
  ∀ (w : World) (tr : list Event) (k : nat) batch err,
    bs !! k = Some batch →
    (∀ j b, j < k → bs !! j = Some b →
       (dynamoDB_send TABLE_NAME b (world_after (take j bs) w)).1 = inr tt) →
    (dynamoDB_send TABLE_NAME batch (world_after (take k bs) w)).1 = inl err →
    for_of bs
      (λ batch, call (BatchWriteItem TABLE_NAME batch) (dynamoDB_send TABLE_NAME batch))
      (w, tr)
    = (inl err,
       (world_after (take (S k) bs) w,
        tr ++ (BatchWriteItem TABLE_NAME <$> take (S k) bs))).
Proof.
  induction bs as [|b0 rest IH]; intros w tr k batch err Hk Hbefore Hthrow;
    [done|].
  rewrite for_of_cons. unfold call at 1. simpl.
  destruct k as [|k].
  - simpl in Hk, Hthrow. injection Hk as ->.
    destruct (dynamoDB_send TABLE_NAME batch w) as [r w'] eqn:Hsend.
    simpl in Hthrow. subst r. unfold world_after. simpl.
    by rewrite ?Hsend, ?take_0.
  - pose proof (Hbefore 0 b0 ltac:(lia) eq_refl) as H0. simpl in H0.
    destruct (dynamoDB_send TABLE_NAME b0 w) as [r w'] eqn:Hsend.
    simpl in H0. subst r.
    rewrite (IH w' (tr ++ [BatchWriteItem TABLE_NAME b0]) k batch err).
    + unfold world_after. simpl. rewrite ?Hsend. simpl.
      by rewrite <- app_assoc.
    + done.
    + intros j b Hj Hb. specialize (Hbefore (S j) b ltac:(lia) Hb).
      unfold world_after in Hbefore |- *. simpl in Hbefore.
      by rewrite ?Hsend in Hbefore.
    + unfold world_after in Hthrow |- *. simpl in Hthrow.
      by rewrite ?Hsend in Hthrow.
Qed.

Lemma send_loop_succeeds (bs : list (option (list WriteRequest))) :
  ∀ (w : World) (tr : list Event),
    (∀ j b, bs !! j = Some b →
       (dynamoDB_send TABLE_NAME b (world_after (take j bs) w)).1 = inr tt) →
    for_of bs
      (λ batch, call (BatchWriteItem TABLE_NAME batch) (dynamoDB_send TABLE_NAME batch))
      (w, tr)
    = (inr tt, (world_after bs w, tr ++ (BatchWriteItem TABLE_NAME <$> bs))).
Proof.
  induction bs as [|b0 rest IH]; intros w tr Hall.
  - simpl. by rewrite app_nil_r.
  - rewrite for_of_cons. unfold call at 1. simpl.
    pose proof (Hall 0 b0 eq_refl) as H0. simpl in H0.
    destruct (dynamoDB_send TABLE_NAME b0 w) as [r w'] eqn:Hsend.
    simpl in H0. subst r. rewrite IH.
    + unfold world_after. simpl. rewrite ?Hsend. simpl. by rewrite <- app_assoc.
    + intros j b Hb. specialize (Hall (S j) b Hb).
      unfold world_after in Hall |- *. simpl in Hall.
      by rewrite ?Hsend in Hall.
Qed.

(** C9: the batches are written one after the other, in order. If the
    writes of the batches before position [k] succeed and the write of the
    batch at [k] throws, the loop ends with that error after issuing exactly
    the batches up to and including [k], in order: the earlier ones stay
    written and no later one is issued. *)
Theorem writes_stop_at_first_failure (putRequests : list WriteRequest)
    (st : Run) (k : nat) (batch : option (list WriteRequest)) (err : Error) :
  let bs := batches putRequests in
  bs !! k = Some batch →
  (∀ j b, j < k → bs !! j = Some b →
     (dynamoDB_send TABLE_NAME b (world_after (take j bs) st.1)).1 = inr tt) →
  (dynamoDB_send TABLE_NAME batch (world_after (take k bs) st.1)).1 = inl err →
  writeToDynamoDBInBatches putRequests st
  = (inl err,
     (world_after (take (S k) bs) st.1,
      st.2 ++ (BatchWriteItem TABLE_NAME <$> take (S k) bs))).
Proof.
  intros bs Hk Hbefore Hthrow. destruct st as [w tr].
  unfold writeToDynamoDBInBatches. fold bs.
  by apply (send_loop_throws bs w tr k batch err).
Qed.

Lemma handler_try_decoded (event : S3Event) (st : Run) (bucket key : JsString)
    (w : World) (jsonData : list RawRow) :
  decodes_to event st bucket key w jsonData →
  handler_try event st
  = after_decoding jsonData (w, st.2 ++ [S3GetObject bucket key]).
Proof.
  intros (key0 & s3Object & buffer & workbook & first & others
          & Hb & Hk & Tb & Tk & Hdec & Hs3 & Hstream & Hread & Hnames & Hjson).
  unfold handler_try. rewrite Hb, Hk, Tb, Tk. simpl.
  unfold mbind, M_bind, bind, lift_result, call.
  rewrite Hdec, Hs3, Hstream, Hread, Hnames, Hjson.
  reflexivity.
Qed.

(** C7: when the object decodes to at least one row and no row is valid,
    the handler fetches the object, logs the one warning "No valid records
    found." and returns: nothing is written to the store and none of the
    diagnostics is logged, although there is one for every row. *)
Theorem no_valid_rows_no_write (event : S3Event) (st : Run)
    (bucket key : JsString) (w : World) (jsonData : list RawRow) :
  decodes_to event st bucket key w jsonData →
  jsonData ≠ [] →
  (∀ i user, jsonData !! i = Some user → valid (validateUser user i) = false) →
  handler event st
  = (inr tt,
     (w, st.2 ++ [S3GetObject bucket key;
                  Console LWarn (u16 "No valid records found.") []]))
  ∧ (filter_validate jsonData 0 []).1 = []
  ∧ length (filter_validate jsonData 0 []).2 = length jsonData.
Proof.
  intros Hdec Hne Hinvalid.
  pose proof (filter_validate_all_invalid jsonData 0 [] Hinvalid) as Hnil.
  pose proof (filter_validate_lengths jsonData 0 []) as Hlen.
  rewrite Hnil in Hlen. simpl in Hlen.
  split; [|split; [done|lia]].
  unfold handler, try_catch.
  rewrite (handler_try_decoded _ _ _ _ _ _ Hdec). unfold after_decoding.
  destruct jsonData as [|user rest]; [done|].
  cbn [length Nat.eqb].
  destruct (filter_validate (user :: rest) 0 []) as [validUsers errors].
  simpl in Hnil. subst validUsers. simpl.
  unfold console_warn, emit. simpl. by rewrite <- app_assoc.
Qed.

(** C8: the handler returns normally whatever the event and whatever the
    collaborators do. When its [try] block ends normally so does the
    handler, in the same state; when the block throws, the handler logs
    "Lambda failed:" with the error and returns. *)
Theorem handler_never_throws (event : S3Event) (st : Run) :
  (handler event st).1 = inr tt
  ∧ handler event st
    = match handler_try event st with
      | (inr _, st') => (inr tt, st')
      | (inl err, st') =>
          (inr tt,
           (st'.1, st'.2 ++ [Console LError (u16 "Lambda failed:") [ArgError err]]))
      end.
Proof.
  unfold handler, try_catch.
  destruct (handler_try event st) as [[err|[]] st']; by simpl.
Qed.

(** X13: when the fetch throws, the handler has issued the fetch and
    nothing else; it logs "Lambda failed:" with the error and returns. *)
Lemma handler_fetch_failure (event : S3Event) (st : Run)
    (bucket key0 key : JsString) (err : Error) (w : World) :
  head (Records event) ≫= bucket_name = Some bucket →
  head (Records event) ≫= object_key = Some key0 →
  ToBoolean (JString bucket) = true → ToBoolean (JString key0) = true →
  decodeURIComponent (replace_plus key0) = inr key →
  s3_send bucket key st.1 = (inl err, w) →
  handler event st
  = (inr tt,
     (w, st.2 ++ [S3GetObject bucket key;
                  Console LError (u16 "Lambda failed:") [ArgError err]])).
Proof.
  intros Hb Hk Tb Tk Hdec Hs3.
  unfold handler, try_catch, handler_try. rewrite Hb, Hk, Tb, Tk. simpl.
  unfold mbind, M_bind, bind, lift_result, call. rewrite Hdec, Hs3.
  unfold console_error, emit. simpl. by rewrite <- app_assoc.
Qed.

(** X14: when the store throws on the batch at position [k] after
    accepting the earlier ones, the handler has issued the fetch and the
    writes up to that batch; it logs "Lambda failed:" with the error and
    returns, without the "Uploaded" line and without the diagnostics. *)
Lemma handler_store_failure (event : S3Event) (st : Run)
    (bucket key : JsString) (w : World) (jsonData : list RawRow) (k : nat)
    (batch : option (list WriteRequest)) (err : Error) :
  let validUsers := (filter_validate jsonData 0 []).1 in
  let bs := batches (buildPutRequests validUsers) in
  decodes_to event st bucket key w jsonData →
  validUsers ≠ [] →
  bs !! k = Some batch →
  (∀ j b, j < k → bs !! j = Some b →
     (dynamoDB_send TABLE_NAME b (world_after (take j bs) w)).1 = inr tt) →
  (dynamoDB_send TABLE_NAME batch (world_after (take k bs) w)).1 = inl err →
  handler event st
  = (inr tt,
     (world_after (take (S k) bs) w,
      st.2 ++ [S3GetObject bucket key]
      ++ (BatchWriteItem TABLE_NAME <$> take (S k) bs)
      ++ [Console LError (u16 "Lambda failed:") [ArgError err]])).
Proof.
  intros validUsers bs Hdec Hne Hk Hbefore Hthrow.
  unfold handler, try_catch.
  rewrite (handler_try_decoded _ _ _ _ _ _ Hdec). unfold after_decoding.
  subst bs validUsers.
  destruct jsonData as [|user rest]; [done|]. cbn [length Nat.eqb].
  destruct (filter_validate (user :: rest) 0 []) as [validUsers errors].
  simpl in Hne, Hk, Hbefore, Hthrow |- *.
  destruct validUsers as [|u validUsers]; [done|]. cbn [length Nat.eqb].
  unfold mbind, M_bind, bind, writeToDynamoDBInBatches.
  rewrite (send_loop_throws _ w _ k batch err Hk Hbefore Hthrow).
  unfold console_error, emit. simpl. by rewrite <- !app_assoc.
Qed.

(** ** Further properties of the row validator *)

Lemma truthy_prop_not_empty (user : RawRow) (k : string) :
  ToBoolean (prop user k) = true → isRowEmpty user = false.
Proof.
  intros Ht. destruct (isRowEmpty user) eqn:He; [|done].
  apply isRowEmpty_iff in He. unfold prop in Ht.
  destruct (user !! k) as [v|] eqn:Hk; simpl in Ht; [|done].
  apply He in Hk. simpl in Hk. destruct Hk as [->|[->| ->]]; done.
Qed.

Lemma userId_passes_truthy (user : RawRow) :
  userId_fails user = false → ToBoolean (prop user "userId") = true.
Proof.
  unfold userId_fails. intros H. apply orb_false_iff in H as [H _].
  by apply negb_false_iff in H.
Qed.

Lemma userId_passes_iff (user : RawRow) :
  userId_fails user = false ↔ userId_ok (prop user "userId").
Proof.
  unfold userId_fails, userId_ok.
  destruct (prop user "userId") as [| |b|n|s]; simpl.
  - split; [done|]. intros [(? & ? & _)|(? & ? & _)]; done.
  - split; [done|]. intros [(? & ? & _)|(? & ? & _)]; done.
  - rewrite orb_true_r. split; [done|].
    intros [(? & ? & _)|(? & ? & _)]; done.
  - rewrite orb_false_r. destruct n; simpl; (split; [|try done]);
      try discriminate; try (intros _; right; eexists; split; done).
    + intros [(? & ? & _)|(n & [= <-] & ?)]; done.
    + intros [(? & ? & _)|(n & [= <-] & ?)]; done.
  - rewrite orb_false_r. destruct s as [|c s]; simpl; (split; [|try done]);
      try discriminate.
    + intros [(s' & [= <-] & ?)|(? & ? & _)]; done.
    + intros _. left. by eexists.
Qed.

Lemma name_passes_iff (user : RawRow) :
  name_fails user = false ↔ name_ok (prop user "name").
Proof.
  unfold name_fails, name_ok.
  destruct (prop user "name") as [| |b|n|s]; simpl;
    try (split; [done|intros (? & ? & _); done]).
  - rewrite orb_true_r. split; [done|intros (? & ? & _); done].
  - rewrite orb_true_r. split; [done|intros (? & ? & _); done].
  - rewrite orb_false_r. destruct s as [|c s]; simpl.
    + split; [done|]. intros (s' & [= <-] & ?). done.
    + split; [|done]. intros _. by eexists.
Qed.

Lemma profileImageUrl_passes_iff (user : RawRow) :
  profileImageUrl_fails user = false
  ↔ ToBoolean (prop user "profileImageUrl") = false
    ∨ url_shape (ToString (prop user "profileImageUrl")).
Proof.
  unfold profileImageUrl_fails, isValidUrl, RegExp_test.
  destruct (ToBoolean (prop user "profileImageUrl")); simpl.
  - rewrite negb_false_iff, url_regex_shape. split; [by right|].
    by intros [?|?].
  - split; [by left|done].
Qed.

Lemma valid_checks_pass (user : RawRow) (index : nat) :
  valid (validateUser user index) = true
  ↔ isRowEmpty user = false ∧ userId_fails user = false
    ∧ name_fails user = false ∧ email_fails user = false
    ∧ profileImageUrl_fails user = false.
Proof.
  rewrite validateUser_checks. unfold checks. simpl.
  destruct (isRowEmpty user), (userId_fails user), (name_fails user),
    (email_fails user), (profileImageUrl_fails user); simpl;
    split; (done || intros (? & ? & ? & ? & ?); done).
Qed.

(** X1: a row whose userId passes is rejected with "Missing or invalid
    'name'" exactly when its name is not a non-empty string: absent, null,
    a number, a boolean or the empty string. *)
Theorem name_check_rejects_iff (user : RawRow) (index : nat) :
  userId_fails user = false →
  validateUser user index = invalid index "Missing or invalid 'name'"
  ↔ ¬ name_ok (prop user "name").
Proof.
  intros Hid.
  pose proof (truthy_prop_not_empty _ _ (userId_passes_truthy _ Hid)) as Hne.
  rewrite validateUser_reason, <- name_passes_iff.
  unfold checks. simpl. rewrite Hne, Hid.
  destruct (name_fails user).
  - split; [by intros _ ?|done].
  - split; [|by intros []].
    destruct (email_fails user), (profileImageUrl_fails user); discriminate.
Qed.

(** X2: a row is accepted exactly when its userId is a non-empty string or
    a number other than 0, -0 and NaN, its name is a non-empty string, its
    email is a string of the pattern's shape, and its profileImageUrl is
    falsy or a value whose string is an http(s) URL without a space. The
    emptiness check never decides acceptance, and neither does the index:
    a row valid at one position is valid at every position. An accepted row
    carries no error and a rejected one carries one. *)
Theorem accepted_rows (user : RawRow) (index : nat) :
  (valid (validateUser user index) = true
   ↔ userId_ok (prop user "userId")
     ∧ name_ok (prop user "name")
     ∧ email_accepted (prop user "email")
     ∧ (ToBoolean (prop user "profileImageUrl") = false
        ∨ url_shape (ToString (prop user "profileImageUrl"))))
  ∧ (∀ index', valid (validateUser user index') = valid (validateUser user index))
  ∧ (valid (validateUser user index) = true
     ↔ error (validateUser user index) = None).
Proof.
  split; [|split].
  - rewrite valid_checks_pass, userId_passes_iff, name_passes_iff,
      email_fails_iff, profileImageUrl_passes_iff.
    split; [by intros (_ & ?)|]. intros (Hid & Hrest). split; [|done].
    apply userId_passes_iff, userId_passes_truthy in Hid.
    by apply (truthy_prop_not_empty user "userId").
  - intros index'. rewrite !validateUser_checks.
    by destruct (first_failure (checks user)).
  - rewrite validateUser_checks.
    by destruct (first_failure (checks user)).
Qed.

(** X3: a row is rejected with "Empty row" exactly when every one of its
    fields is null, undefined or the empty string; a row object without any
    field is such a row. A row with one field holding 0, false or a space is
    not empty. *)
Theorem empty_row_reason_iff (user : RawRow) (index : nat) :
  (validateUser user index = invalid index "Empty row"
   ↔ map_Forall (λ _ v, v = JNull ∨ v = JUndefined ∨ v = JString []) user)
  ∧ validateUser ∅ index = invalid index "Empty row"
  ∧ (∀ k v, user !! k = Some v →
            v ≠ JNull → v ≠ JUndefined → v ≠ JString [] →
            validateUser user index ≠ invalid index "Empty row").
Proof.
  assert (validateUser user index = invalid index "Empty row"
          ↔ isRowEmpty user = true) as Hiff.
  { rewrite validateUser_reason. unfold checks. simpl.
    destruct (isRowEmpty user); [done|]. split; [|done].
    destruct (userId_fails user), (name_fails user), (email_fails user),
      (profileImageUrl_fails user); discriminate. }
  split; [by rewrite Hiff, isRowEmpty_iff|]. split.
  - apply validateUser_reason. reflexivity.
  - intros k v Hk H1 H2 H3 H. apply Hiff, isRowEmpty_iff in H.
    apply H in Hk. simpl in Hk. destruct Hk as [?|[?|?]]; done.
Qed.

Lemma not_space_at_filter (l : list N) :
  Forall (λ c, not_space_at c = true) l →
  filter (λ c, c = at_sign) l = [] ∧ Forall (λ c, is_space c = false) l.
Proof.
  induction 1 as [|c l Hc _ [IH1 IH2]]; [done|].
  unfold not_space_at in Hc. apply negb_true_iff, orb_false_iff in Hc as [Hs Ha].
  apply N.eqb_neq in Ha. rewrite filter_cons, decide_False by done.
  split; [done|by constructor].
Qed.

(** X4: an email that passes [isValidEmail] holds exactly one [@], holds
    no white space, and is at least five code units long. *)
Theorem valid_email_one_at (s : list N) :
  isValidEmail (JString s) = true →
  length (filter (λ c, c = at_sign) s) = 1
  ∧ Forall (λ c, is_space c = false) s
  ∧ 5 ≤ length s.
Proof.
  unfold isValidEmail, RegExp_test. simpl. rewrite email_regex_shape.
  intros (l & d & t & -> & Hl & Hd & Ht & Fl & Fd & Ft).
  apply not_space_at_filter in Fl as [Al Sl], Fd as [Ad Sd], Ft as [At St].
  split; [|split].
  - rewrite !filter_app, Al, Ad, At. reflexivity.
  - repeat (apply Forall_app; split); try done; by repeat constructor.
  - rewrite !length_app. destruct l, d, t; simpl; try done; lia.
Qed.

(** ** Further properties of the items *)

Lemma filter_validate_valid (jsonData : list RawRow) (i : nat)
    (errors : list (option JsString)) :
  Forall (λ u, ∃ index, valid (validateUser u index) = true)
    (filter_validate jsonData i errors).1.
Proof.
  revert i errors. induction jsonData as [|user rest IH]; intros i errors;
    [by constructor|].
  simpl.
  specialize (IH (S i)
    (if valid (validateUser user i) then errors
     else errors ++ [error (validateUser user i)])).
  destruct (filter_validate rest (S i) _) as [validUsers errors'].
  simpl in IH |- *.
  destruct (valid (validateUser user i)) eqn:Hv; [|done].
  constructor; [by exists i|done].
Qed.

Lemma buildPutRequests_twin_valid (validUsers : list RawRow) :
  Forall (λ u, ∃ index, valid (validateUser u index) = true) validUsers →
  buildPutRequests_twin validUsers = Some (buildPutRequests validUsers).
Proof.
  unfold buildPutRequests_twin, buildPutRequests.
  induction 1 as [|u l [index Hu] _ IH]; [done|].
  rewrite fmap_cons. cbn [mapM]. rewrite IH.
  by rewrite (valid_userId_stringifies u index Hu).
Qed.

(** X5: on the rows that the validation pass lets through, the twin's
    [buildPutRequests] never throws and builds the very items of
    [handler.ts], one per valid row. *)
Theorem validated_rows_build_in_both (jsonData : list RawRow) :
  let validUsers := (filter_validate jsonData 0 []).1 in
  buildPutRequests_twin validUsers = Some (buildPutRequests validUsers)
  ∧ length (buildPutRequests validUsers) = length validUsers
  ∧ length validUsers ≤ length jsonData.
Proof.
  intros validUsers. subst validUsers. split; [|split].
  - apply buildPutRequests_twin_valid, filter_validate_valid.
  - unfold buildPutRequests. apply length_fmap.
  - pose proof (filter_validate_lengths jsonData 0 []) as H. simpl in H. lia.
Qed.

(** X6: the item of a valid row holds strings in its three required
    attributes: [userId] a string, [name] a non-empty string, [email] a
    string of the pattern's shape. Its [profileImage] is the empty string
    when the row has no profileImageUrl (undefined or null). When the row
    has one, [profileImage] is the cell itself, and that cell is either
    falsy (the empty string, false, a zero, NaN: the [??] lets these through
    unchanged, a boolean as a boolean and a number as a number) or a value
    whose string is an http(s) URL; so a URL string is stored as it is. *)
Theorem items_of_valid_rows (user : RawRow) (index : nat) :
  valid (validateUser user index) = true →
  ∃ item sid sname semail,
    buildPutRequests [user] = [{| PutRequest := {| Item := item |} |}]
    ∧ item !! "userId" = Some (AttrS (JString sid))
    ∧ item !! "name" = Some (AttrS (JString sname)) ∧ sname ≠ []
    ∧ item !! "email" = Some (AttrS (JString semail)) ∧ email_shape semail
    ∧ (prop user "profileImageUrl" = JUndefined
       ∨ prop user "profileImageUrl" = JNull →
       item !! "profileImage" = Some (AttrS (JString [])))
    ∧ (prop user "profileImageUrl" ≠ JUndefined →
       prop user "profileImageUrl" ≠ JNull →
       item !! "profileImage" = Some (AttrS (prop user "profileImageUrl"))
       ∧ (ToBoolean (prop user "profileImageUrl") = false
          ∨ url_shape (ToString (prop user "profileImageUrl"))))
    ∧ (∀ url, prop user "profileImageUrl" = JString url → url ≠ [] →
              item !! "profileImage" = Some (AttrS (JString url))
              ∧ url_shape url)
    ∧ (∀ b, prop user "profileImageUrl" = JBoolean b →
            b = false ∧ item !! "profileImage" = Some (AttrS (JBoolean false))).
Proof.
  intros Hv. apply valid_checks_pass in Hv as (_ & _ & Hn & He & Hp).
  apply name_passes_iff in Hn as (sname & Hn & Hne).
  apply email_fails_iff in He as (semail & He & Hshape).
  apply profileImageUrl_passes_iff in Hp.
  eexists _, (ToString (prop user "userId")), sname, semail.
  split; [reflexivity|].
  split; [by simplify_map_eq|].
  split; [rewrite <- Hn; by simplify_map_eq|]. split; [done|].
  split; [rewrite <- He; by simplify_map_eq|]. split; [done|].
  split.
  { intros [H|H]; rewrite H; by simplify_map_eq. }
  split.
  { intros Hu Hnull. split; [|done]. simplify_map_eq.
    by destruct (prop user "profileImageUrl"). }
  split.
  { intros url Hurl Hnonempty. rewrite Hurl in Hp |- *.
    split; [by simplify_map_eq|].
    destruct Hp as [Hp|Hp]; [by destruct url|done]. }
  intros b Hb. rewrite Hb in Hp |- *.
  destruct Hp as [Hp|Hp].
  - simpl in Hp. subst b. split; [done|by simplify_map_eq].
  - apply url_regex_shape in Hp. by destruct b.
Qed.

(** ** Further properties of the write loop *)

Lemma batches_are_chunks {A} (items : list A) :
  batches items = Some <$> contiguous_chunks BATCH_SIZE items
  ∧ concat (contiguous_chunks BATCH_SIZE items) = items
  ∧ full_then_last (contiguous_chunks BATCH_SIZE items).
Proof.
  destruct (reduce_chunk_step_invariant items [] (or_introl eq_refl))
    as (bs & Hred & Hcat & Hshape).
  simpl in Hred, Hcat. subst items.
  by rewrite (full_then_last_chunks bs Hshape).
Qed.

Lemma full_then_last_bounds {A} (bs : list (list A)) :
  full_then_last bs → Forall (λ b, 0 < length b ≤ BATCH_SIZE) bs.
Proof.
  pose proof BATCH_SIZE_pos as Hpos.
  intros [->|(init & b & -> & Hfull & Hb)]; [done|].
  apply Forall_app. split; [|by constructor].
  eapply Forall_impl; [done|]. simpl. intros c ->. lia.
Qed.

Lemma send_loop_prefix (bs : list (option (list WriteRequest))) :
  ∀ (w : World) (tr : list Event),
    ∃ k, k ≤ length bs
      ∧ (for_of bs
           (λ batch, call (BatchWriteItem TABLE_NAME batch)
                       (dynamoDB_send TABLE_NAME batch))
           (w, tr)).2.2
        = tr ++ (BatchWriteItem TABLE_NAME <$> take k bs).
Proof.
  induction bs as [|b0 rest IH]; intros w tr.
  - exists 0. simpl. by rewrite app_nil_r.
  - rewrite for_of_cons. unfold call at 1. simpl.
    destruct (dynamoDB_send TABLE_NAME b0 w) as [[err|[]] w'].
    + exists 1. simpl. rewrite ?take_0. split; [lia|done].
    + destruct (IH w' (tr ++ [BatchWriteItem TABLE_NAME b0])) as (k & Hk & ->).
      exists (S k). simpl. split; [lia|]. by rewrite <- app_assoc.
Qed.

(** X7: whatever the store answers, the writes that
    [writeToDynamoDBInBatches] issues are the first chunks of its input, in
    order, each to the table "userTable" and each holding between 1 and 25
    requests: it never sends an empty batch, a batch above the limit or an
    undefined slot, and for no request it sends nothing at all. *)
Theorem writes_are_leading_chunks (putRequests : list WriteRequest) (st : Run) :
  (∃ k, k ≤ length (contiguous_chunks BATCH_SIZE putRequests)
     ∧ (writeToDynamoDBInBatches putRequests st).2.2
       = st.2 ++ ((λ b, BatchWriteItem "userTable" (Some b))
                    <$> take k (contiguous_chunks BATCH_SIZE putRequests)))
  ∧ Forall (λ b, 1 ≤ length b ≤ 25) (contiguous_chunks BATCH_SIZE putRequests)
  ∧ writeToDynamoDBInBatches [] st = (inr tt, st).
Proof.
  destruct (batches_are_chunks putRequests) as (Hb & _ & Hshape).
  split; [|split].
  - unfold writeToDynamoDBInBatches. rewrite Hb. destruct st as [w tr].
    destruct (send_loop_prefix (Some <$> contiguous_chunks BATCH_SIZE putRequests)
                w tr) as (k & Hk & ->).
    exists k. rewrite length_fmap in Hk. split; [done|]. simpl. f_equal.
    by rewrite <- fmap_take, <- list_fmap_compose.
  - apply full_then_last_bounds in Hshape. rewrite BATCH_SIZE_eq in Hshape.
    eapply Forall_impl; [done|]. simpl. intros b. lia.
  - by destruct st.
Qed.

(** X8: when the store accepts every write, [writeToDynamoDBInBatches]
    returns normally after writing every chunk of its input once, in order;
    the batches written, put end to end, are the input. *)
Theorem all_writes_cover_the_input (putRequests : list WriteRequest) (st : Run) :
  let bs := batches putRequests in
  (∀ j b, bs !! j = Some b →
     (dynamoDB_send TABLE_NAME b (world_after (take j bs) st.1)).1 = inr tt) →
  writeToDynamoDBInBatches putRequests st
  = (inr tt,
     (world_after bs st.1,
      st.2 ++ ((λ b, BatchWriteItem TABLE_NAME (Some b))
                 <$> contiguous_chunks BATCH_SIZE putRequests)))
  ∧ concat (contiguous_chunks BATCH_SIZE putRequests) = putRequests.
Proof.
  intros bs Hall. destruct (batches_are_chunks putRequests) as (Hb & Hcat & _).
  split; [|done]. destruct st as [w tr].
  unfold writeToDynamoDBInBatches. fold bs.
  rewrite (send_loop_succeeds bs w tr Hall). subst bs. rewrite Hb.
  by rewrite <- list_fmap_compose.
Qed.

(** ** Further properties of the orchestrator *)

(** X9: when the first record of the trigger lacks a bucket name or an
    object key (absent or empty), and so when there is no record at all, the
    handler logs "Invalid event format" and returns: it fetches nothing,
    writes nothing and leaves the world as it was. *)
Theorem handler_malformed_trigger (event : S3Event) (st : Run) :
  missing (head (Records event) ≫= bucket_name)
  ∨ missing (head (Records event) ≫= object_key) →
  handler event st
  = (inr tt, (st.1, st.2 ++ [Console LError (u16 "Invalid event format") []])).
Proof.
  intros H. unfold handler, try_catch, handler_try.
  destruct (head (Records event) ≫= bucket_name) as [[|c b]|],
    (head (Records event) ≫= object_key) as [[|c' k]|];
    try reflexivity.
  destruct H as [[H|H]|[H|H]]; discriminate H.
Qed.

(** X10: when the key does not percent-decode (after every [+] became a
    space), the handler logs "Lambda failed:" with the error and returns
    without having fetched anything. *)
Theorem handler_undecodable_key (event : S3Event) (st : Run)
    (bucket key0 : JsString) (err : Error) :
  head (Records event) ≫= bucket_name = Some bucket →
  head (Records event) ≫= object_key = Some key0 →
  ToBoolean (JString bucket) = true → ToBoolean (JString key0) = true →
  decodeURIComponent (replace_plus key0) = inl err →
  handler event st
  = (inr tt,
     (st.1, st.2 ++ [Console LError (u16 "Lambda failed:") [ArgError err]])).
Proof.
  intros Hb Hk Tb Tk Hdec.
  unfold handler, try_catch, handler_try. rewrite Hb, Hk, Tb, Tk. simpl.
  unfold mbind, M_bind, bind, lift_result. by rewrite Hdec.
Qed.

(** X11: when the fetched object cannot be decoded (its stream fails,
    the workbook does not parse, or its first sheet does not convert to
    rows), the handler has issued the fetch and nothing else; it logs
    "Lambda failed:" with the error and returns. *)
Theorem handler_decode_failure (event : S3Event) (st : Run)
    (bucket key : JsString) (w : World) (s3Object : Readable Error)
    (err : Error) :
  fetches event st bucket key w s3Object →
  decoding_throws s3Object err →
  handler event st
  = (inr tt,
     (w, st.2 ++ [S3GetObject bucket key;
                  Console LError (u16 "Lambda failed:") [ArgError err]])).
Proof.
  intros (key0 & Hb & Hk & Tb & Tk & Hdec & Hs3) Hthrow.
  unfold handler, try_catch, handler_try. rewrite Hb, Hk, Tb, Tk. simpl.
  unfold mbind, M_bind, bind, lift_result, call. rewrite Hdec, Hs3.
  unfold console_error, emit.
  destruct Hthrow as [H|[(buffer & H1 & H2)
                        |(buffer & workbook & first & others & H1 & H2 & H3 & H4)]].
  - rewrite H. simpl. by rewrite <- app_assoc.
  - rewrite H1, H2. simpl. by rewrite <- app_assoc.
  - rewrite H1, H2, H3, H4. simpl. by rewrite <- app_assoc.
Qed.

(** X12: when the decoded workbook lists no sheet, or the first sheet
    holds no data row, the handler has issued the fetch and nothing else;
    it logs "No sheets found in Excel file." in the first case and "Excel
    sheet is empty." in the second and returns. *)
Theorem handler_nothing_to_read (event : S3Event) (st : Run)
    (bucket key : JsString) (w : World) (s3Object : Readable Error) :
  (fetches event st bucket key w s3Object →
   decodes_without_sheets s3Object →
   handler event st
   = (inr tt,
      (w, st.2 ++ [S3GetObject bucket key;
                   Console LError (u16 "No sheets found in Excel file.") []])))
  ∧ (decodes_to event st bucket key w [] →
     handler event st
     = (inr tt,
        (w, st.2 ++ [S3GetObject bucket key;
                     Console LError (u16 "Excel sheet is empty.") []]))).
Proof.
  split.
  - intros (key0 & Hb & Hk & Tb & Tk & Hdec & Hs3)
      (buffer & workbook & H1 & H2 & H3).
    unfold handler, try_catch, handler_try. rewrite Hb, Hk, Tb, Tk. simpl.
    unfold mbind, M_bind, bind, lift_result, call. rewrite Hdec, Hs3, H1, H2.
    unfold console_error, emit.
    destruct H3 as [-> | ->]; simpl; by rewrite <- app_assoc.
  - intros Hdec. unfold handler, try_catch.
    rewrite (handler_try_decoded _ _ _ _ _ _ Hdec). unfold after_decoding.
    simpl. by rewrite <- app_assoc.
Qed.

(** X15: when the rows decode, at least one is valid and the store accepts
    every write, the handler issues the fetch, then one write per chunk of
    25 of the items of the valid rows, in order, then logs "Uploaded N
    records to DynamoDB." with N the number of valid rows, and, only if some
    row was rejected, warns "skipped K rows:" with the K diagnostics. *)
Theorem handler_uploads_valid_rows (event : S3Event) (st : Run)
    (bucket key : JsString) (w : World) (jsonData : list RawRow) :
  let validUsers := (filter_validate jsonData 0 []).1 in
  let errors := (filter_validate jsonData 0 []).2 in
  let putRequests := buildPutRequests validUsers in
  let bs := batches putRequests in
  decodes_to event st bucket key w jsonData →
  validUsers ≠ [] →
  (∀ j b, bs !! j = Some b →
     (dynamoDB_send TABLE_NAME b (world_after (take j bs) w)).1 = inr tt) →
  handler event st
  = (inr tt,
     (world_after bs w,
      st.2 ++ [S3GetObject bucket key]
      ++ ((λ b, BatchWriteItem TABLE_NAME (Some b))
            <$> contiguous_chunks BATCH_SIZE putRequests)
      ++ [Console LLog
            (u16 ("Uploaded " +:+ pretty (length validUsers)
                  +:+ " records to DynamoDB.")) []]
      ++ match errors with
         | [] => []
         | _ :: _ =>
             [Console LWarn
                (u16 ("skipped " +:+ pretty (length errors) +:+ " rows:"))
                [ArgStrings errors]]
         end)).
Proof.
  intros validUsers errors putRequests bs Hdec Hne Hall.
  unfold handler, try_catch.
  rewrite (handler_try_decoded _ _ _ _ _ _ Hdec). unfold after_decoding.
  subst bs putRequests validUsers errors.
  destruct jsonData as [|user rest]; [done|]. cbn [length Nat.eqb].
  destruct (filter_validate (user :: rest) 0 []) as [validUsers errors].
  simpl in Hne, Hall |- *.
  destruct validUsers as [|u validUsers]; [done|]. cbn [length Nat.eqb].
  assert (length (buildPutRequests (u :: validUsers)) = S (length validUsers))
    as -> by (unfold buildPutRequests; by rewrite length_fmap).
  revert Hall. generalize (buildPutRequests (u :: validUsers)).
  intros putRequests Hall.
  unfold mbind, M_bind, bind, writeToDynamoDBInBatches.
  rewrite (send_loop_succeeds _ w _ Hall).
  destruct (batches_are_chunks putRequests) as (-> & _ & _).
  unfold console_log, console_warn, emit. simpl.
  rewrite <- list_fmap_compose.
  destruct errors; simpl; by rewrite <- !app_assoc.
Qed.


Lemma write_loop_trace (putRequests : list WriteRequest) (st : Run) :
  ∃ writes,
    (writeToDynamoDBInBatches putRequests st).2.2
    = st.2 ++ ((λ b, BatchWriteItem TABLE_NAME (Some b)) <$> writes)
    ∧ Forall (λ b, 1 ≤ length b ≤ 25) writes.
Proof.
  destruct (batches_are_chunks putRequests) as (Hb & _ & Hshape).
  unfold writeToDynamoDBInBatches. rewrite Hb. destruct st as [w tr].
  destruct (send_loop_prefix (Some <$> contiguous_chunks BATCH_SIZE putRequests)
              w tr) as (k & _ & ->).
  exists (take k (contiguous_chunks BATCH_SIZE putRequests)). split.
  - simpl. f_equal. by rewrite <- fmap_take, <- list_fmap_compose.
  - apply Forall_take. apply full_then_last_bounds in Hshape.
    rewrite BATCH_SIZE_eq in Hshape.
    eapply Forall_impl; [done|]. simpl. intros b. lia.
Qed.

(** The handler ends with one console line, before or after the fetch. *)
Ltac ends_before_fetch :=
  eexists [], [], [_]; simpl;
  (split; [reflexivity|]); (split; [by left|]); (split; [done|]);
  (split; [by repeat constructor|simpl; lia]).

Ltac ends_after_fetch :=
  eexists [_], [], [_]; simpl;
  (split; [rewrite <- app_assoc; reflexivity|]);
  (split; [right; by eexists _, _|]); (split; [done|]);
  (split; [by repeat constructor|simpl; lia]).

(** X17: whatever the event and the collaborators do, what the handler adds
    to the trace is at most one fetch, then writes of between 1 and 25 items
    each, then one or two console lines: it never writes without having
    fetched, never fetches twice, never calls a collaborator after it has
    logged, and never returns without logging. *)
Theorem handler_trace_shape (event : S3Event) (st : Run) :
  ∃ fetch writes logs,
    (handler event st).2.2
    = st.2 ++ fetch ++ ((λ b, BatchWriteItem TABLE_NAME (Some b)) <$> writes)
      ++ logs
    ∧ (fetch = [] ∧ writes = [] ∨ ∃ bucket key, fetch = [S3GetObject bucket key])
    ∧ Forall (λ b, 1 ≤ length b ≤ 25) writes
    ∧ Forall is_console logs
    ∧ 1 ≤ length logs ≤ 2.
Proof.
  destruct st as [w0 tr0].
  unfold handler, try_catch, handler_try.
  destruct (head (Records event) ≫= bucket_name) as [bucket|];
    [|ends_before_fetch].
  destruct (head (Records event) ≫= object_key) as [key0|];
    [|ends_before_fetch].
  destruct (negb (ToBoolean (JString bucket)) || negb (ToBoolean (JString key0)));
    [ends_before_fetch|].
  unfold mbind, M_bind, bind, lift_result, call. simpl.
  destruct (decodeURIComponent (replace_plus key0)) as [e|key];
    [ends_before_fetch|].
  destruct (s3_send bucket key w0) as [[e|s3Object] w1]; [ends_after_fetch|].
  destruct (streamToBuffer s3Object) as [e|buffer]; [ends_after_fetch|].
  destruct (XLSX_read buffer) as [e|workbook]; [ends_after_fetch|].
  destruct (SheetNames workbook) as [[|first others]|];
    [ends_after_fetch| |ends_after_fetch].
  destruct (sheet_to_json (Sheets workbook !! first)) as [e|jsonData];
    [ends_after_fetch|].
  destruct jsonData as [|user rest]; [ends_after_fetch|]. cbn [length Nat.eqb].
  destruct (filter_validate (user :: rest) 0 []) as [validUsers errors].
  destruct validUsers as [|u validUsers]; [ends_after_fetch|].
  cbn [length Nat.eqb].
  generalize (buildPutRequests (u :: validUsers)). intros putRequests.
  destruct (write_loop_trace putRequests (w1, tr0 ++ [S3GetObject bucket key]))
    as (writes & Htr & Hbound).
  destruct (writeToDynamoDBInBatches putRequests
              (w1, tr0 ++ [S3GetObject bucket key])) as [[e|[]] [w2 tr2]];
    simpl in Htr; subst tr2.
  - eexists [_], writes, [_]. simpl.
    split; [rewrite <- !app_assoc; reflexivity|].
    split; [right; by eexists _, _|]. split; [done|].
    split; [by repeat constructor|simpl; lia].
  - unfold console_log, console_warn, emit.
    destruct errors as [|e errors]; simpl.
    + eexists [_], writes, [_]. simpl.
      split; [rewrite <- !app_assoc; reflexivity|].
      split; [right; by eexists _, _|]. split; [done|].
      split; [by repeat constructor|simpl; lia].
    + eexists [_], writes, [_; _]. simpl.
      split; [rewrite <- !app_assoc; reflexivity|].
      split; [right; by eexists _, _|]. split; [done|].
      split; [by repeat constructor|simpl; lia].
Qed.

(** X18: the key's [+] signs all become spaces before it is
    percent-decoded: the result holds no [+], is as long as the key, and is
    the key itself when the key holds no [+]; doing it twice changes
    nothing more. *)
Theorem replace_plus_leaves_no_plus (key : list N) :
  (43%N ∉ replace_plus key)
  ∧ length (replace_plus key) = length key
  ∧ (43%N ∉ key → replace_plus key = key)
  ∧ replace_plus (replace_plus key) = replace_plus key.
Proof.
  unfold replace_plus. split; [|split; [|split]].
  - induction key as [|c key IH]; [by apply not_elem_of_nil|].
    rewrite fmap_cons. apply not_elem_of_cons. split; [|done].
    destruct (N.eqb_spec c 43); [done|congruence].
  - apply length_fmap.
  - induction key as [|c key IH]; [done|]. intros Hc.
    apply not_elem_of_cons in Hc as [Hc Hkey].
    rewrite fmap_cons, IH by done.
    destruct (N.eqb_spec c 43); [congruence|done].
  - rewrite <- list_fmap_compose. apply list_fmap_ext. intros _ c _. simpl.
    destruct (N.eqb_spec c 43) as [->|Hne]; simpl; [done|].
    apply N.eqb_neq in Hne. by rewrite Hne.
Qed.

End Program.

(** ** The specification's wording against the source *)

(** C2 as worded fails on a userId of 0: the row is not empty, its userId
    is present, a number and not the empty string, yet the row is rejected
    with "Missing or invalid 'userId'", whatever Number::toString is. *)
Lemma userId_zero_is_rejected :
  isRowEmpty row_userId_zero = false
  ∧ prop row_userId_zero "userId" = JNumber (S754_zero false)
  ∧ typeof (prop row_userId_zero "userId") = "number"%string
  ∧ ¬ userId_rejected_as_stated (prop row_userId_zero "userId")
  ∧ (∀ NumberToString,
       validateUser NumberToString row_userId_zero 0
       = invalid 0 "Missing or invalid 'userId'").
Proof.
  split; [by vm_compute|]. split; [by vm_compute|]. split; [by vm_compute|].
  split.
  - assert (prop row_userId_zero "userId" = JNumber (S754_zero false)) as ->
      by (by vm_compute).
    intros [H|[[_ H]|H]]; by (discriminate H || apply H).
  - intros f. by vm_compute.
Qed.

(** C3 as worded fails on "a@b.c@d": the row reaches the email check, its
    email is a string of the worded shape (local "a", domain "b", then
    "c@d" after the dot, which has no space), yet the row is rejected with
    "Invalid 'email'", whatever Number::toString is. *)
Lemma email_with_second_at_is_rejected :
  isRowEmpty row_two_ats = false
  ∧ userId_fails row_two_ats = false
  ∧ name_fails row_two_ats = false
  ∧ prop row_two_ats "email" = JString (u16 "a@b.c@d")
  ∧ email_shape_as_stated (u16 "a@b.c@d")
  ∧ (∀ NumberToString,
       validateUser NumberToString row_two_ats 0 = invalid 0 "Invalid 'email'").
Proof.
  split; [by vm_compute|]. split; [by vm_compute|]. split; [by vm_compute|].
  split; [by vm_compute|]. split.
  - exists (u16 "a"), (u16 "b"), (u16 "c@d").
    split; [done|]. split; [done|]. split; [done|]. split; [done|].
    split; [|split]; repeat constructor.
  - intros f. by vm_compute.
Qed.

(** ** Worked instances *)

Lemma batches_of_52_items :
  length (seq 0 52) = 52
  ∧ length <$> contiguous_chunks BATCH_SIZE (seq 0 52) = [25; 25; 2]
  ∧ batches (seq 0 52) = Some <$> contiguous_chunks BATCH_SIZE (seq 0 52).
Proof.
  destruct (batches_contiguous_chunking (seq 0 52))
    as (_ & Hdense & _ & _ & _ & _ & H52 & _).
  split; [reflexivity|]. split; [apply H52; reflexivity|exact Hdense].
Defined.

Lemma blank_row_is_empty_row :
  map_Forall (λ _ v, v = JNull ∨ v = JUndefined ∨ v = JString []) row_blank
  ∧ validateUser sample_NumberToString row_blank 0 = invalid 0 "Empty row".
Proof.
  assert (map_Forall (λ _ v, v = JNull ∨ v = JUndefined ∨ v = JString [])
            row_blank) as H by (apply isRowEmpty_iff; reflexivity).
  split; [exact H|].
  exact (proj1 (proj2
    (validateUser_first_failing_check sample_NumberToString row_blank 0)) H).
Defined.

Lemma userId_seven_passes :
  isRowEmpty row_ann = false
  ∧ validateUser sample_NumberToString row_ann 0
    ≠ invalid 0 "Missing or invalid 'userId'".
Proof.
  split; [reflexivity|].
  exact (proj2 (userId_check_rejects_iff sample_NumberToString row_ann 0 eq_refl)
           (S754_finite false 7 0) eq_refl eq_refl).
Defined.

Lemma email_of_ann_passes :
  isRowEmpty row_ann = false
  ∧ userId_fails row_ann = false
  ∧ name_fails row_ann = false
  ∧ email_accepted (prop row_ann "email")
  ∧ validateUser sample_NumberToString row_ann 0 ≠ invalid 0 "Invalid 'email'".
Proof.
  assert (email_accepted (prop row_ann "email")) as H.
  { exists (u16 "ann@example.com"). split; [reflexivity|].
    apply email_regex_shape. reflexivity. }
  split; [reflexivity|]. split; [reflexivity|]. split; [reflexivity|].
  split; [exact H|].
  exact (proj2 (proj1
    (email_check_passes_iff sample_NumberToString row_ann 0
       eq_refl eq_refl eq_refl)) H).
Defined.

Lemma image_of_ann_passes :
  isRowEmpty row_ann = false
  ∧ userId_fails row_ann = false
  ∧ name_fails row_ann = false
  ∧ email_fails sample_NumberToString row_ann = false
  ∧ ToBoolean (prop row_ann "profileImageUrl") = true
  ∧ validateUser sample_NumberToString row_ann 0 = accepted.
Proof.
  split; [reflexivity|]. split; [reflexivity|]. split; [reflexivity|].
  split; [reflexivity|]. split; [reflexivity|].
  apply (proj1 (proj2
    (profileImageUrl_check sample_NumberToString row_ann 0
       eq_refl eq_refl eq_refl eq_refl)) eq_refl).
  apply url_regex_shape. reflexivity.
Defined.

Lemma all_invalid_sheet_writes_nothing :
  let jsonData := [row_blank; row_two_ats] in
  decodes_to string nat (list RawRow) sample_decodeURIComponent sample_s3_send
    (sample_XLSX_read jsonData) sample_sheet_to_json
    sample_event (0, []) (u16 "uploads") (u16 "new users.xlsx") 0 jsonData
  ∧ handler sample_NumberToString string nat (list RawRow)
      sample_decodeURIComponent sample_s3_send (sample_XLSX_read jsonData)
      sample_sheet_to_json (sample_dynamoDB_send 0) sample_event (0, [])
    = (inr tt,
       (0, [S3GetObject string (u16 "uploads") (u16 "new users.xlsx");
            Console string LWarn (u16 "No valid records found.") []])).
Proof.
  intros jsonData.
  assert (decodes_to string nat (list RawRow) sample_decodeURIComponent
            sample_s3_send (sample_XLSX_read jsonData) sample_sheet_to_json
            sample_event (0, []) (u16 "uploads") (u16 "new users.xlsx") 0
            jsonData) as Hdec.
  { exists (u16 "new+users.xlsx"),
      {| chunks := [[x50; x4b]]; stream_error := None |}, [x50; x4b],
      {| SheetNames := Some ["Sheet1"%string];
         Sheets := {["Sheet1"%string := jsonData]} |},
      "Sheet1"%string, [].
    repeat split; reflexivity. }
  split; [exact Hdec|].
  refine (proj1 (no_valid_rows_no_write sample_NumberToString string nat
            (list RawRow) sample_decodeURIComponent sample_s3_send
            (sample_XLSX_read jsonData) sample_sheet_to_json
            (sample_dynamoDB_send 0) sample_event (0, []) (u16 "uploads")
            (u16 "new users.xlsx") 0 jsonData Hdec _ _)).
  - discriminate.
  - intros [|[|i]] user Hi; simpl in Hi; try discriminate;
      injection Hi as <-; reflexivity.
Defined.

Lemma second_batch_throws :
  let putRequests := buildPutRequests sample_NumberToString (replicate 60 row_bob) in
  let bs := batches putRequests in
  bs !! 1 = Some (Some (take 25 (drop 25 putRequests)))
  ∧ writeToDynamoDBInBatches string nat (sample_dynamoDB_send 1) putRequests (0, [])
    = (inl "throttled"%string,
       (world_after string nat (sample_dynamoDB_send 1) (take 2 bs) 0,
        [] ++ (BatchWriteItem string TABLE_NAME <$> take 2 bs))).
Proof.
  intros putRequests bs.
  assert (bs !! 1 = Some (Some (take 25 (drop 25 putRequests)))) as Hk
    by (vm_compute; reflexivity).
  split; [exact Hk|].
  refine (writes_stop_at_first_failure string nat (sample_dynamoDB_send 1)
            putRequests (0, []) 1 _ "throttled"%string Hk _ _).
  - intros j b Hj Hb. assert (j = 0) as -> by lia. reflexivity.
  - vm_compute. reflexivity.
Defined.

Lemma items_of_ann_and_bob :
  (∃ item,
     buildPutRequests sample_NumberToString [row_ann; row_bob] !! 0
     = Some {| PutRequest := {| Item := item |} |}
     ∧ item !! "profileImage"
       = Some (AttrS (JString (u16 "https://x.com/ann.png")))
     ∧ item !! "profileImageUrl" = None
     ∧ item !! "userId" = Some (AttrS (JString (u16 "7"))))
  ∧ (∃ item,
       buildPutRequests sample_NumberToString [row_ann; row_bob] !! 1
       = Some {| PutRequest := {| Item := item |} |}
       ∧ item !! "profileImage" = Some (AttrS (JString []))
       ∧ item !! "profileImageUrl" = None
       ∧ item !! "userId" = Some (AttrS (JString (u16 "u2")))).
Proof.
  assert (Forall (λ u, ∃ index,
            valid (validateUser sample_NumberToString u index) = true)
            [row_ann; row_bob]) as Hvalid.
  { repeat constructor; exists 0; reflexivity. }
  split.
  - destruct (buildPutRequests_attributes sample_NumberToString
                [row_ann; row_bob] 0 row_ann Hvalid eq_refl)
      as (item & Hitem & _ & _ & Hno & _ & _ & Hurl & _ & _ & Hnum).
    exists item. split; [exact Hitem|].
    split; [|split; [exact Hno|]].
    + apply (Hurl (u16 "https://x.com/ann.png")). reflexivity.
    + refine (eq_trans (Hnum (S754_finite false 7 0) eq_refl) _).
      vm_compute. reflexivity.
  - destruct (buildPutRequests_attributes sample_NumberToString
                [row_ann; row_bob] 1 row_bob Hvalid eq_refl)
      as (item & Hitem & _ & _ & Hno & Habsent & _ & _ & _ & Hstr & _).
    exists item. split; [exact Hitem|]. split; [|split; [exact Hno|]].
    + apply Habsent. left. reflexivity.
    + apply (Hstr (u16 "u2")). reflexivity.
Defined.

(** Three valid rows: one batch write of three items, then the count. *)
Example three_valid_rows :
  let jsonData := [row_ann; row_bob; row_ann] in
  handler sample_NumberToString string nat (list RawRow)
    sample_decodeURIComponent sample_s3_send (sample_XLSX_read jsonData)
    sample_sheet_to_json (sample_dynamoDB_send 9) sample_event (0, [])
  = (inr tt,
     (1, [S3GetObject string (u16 "uploads") (u16 "new users.xlsx");
          BatchWriteItem string TABLE_NAME
            (Some (buildPutRequests sample_NumberToString jsonData));
          Console string LLog (u16 "Uploaded 3 records to DynamoDB.") []])).
Proof. vm_compute. reflexivity. Qed.

(** Two valid rows around one with a bad email: one batch write of two
    items, the count, and the diagnostic of the third spreadsheet row. *)
Example two_valid_rows_and_a_bad_email :
  handler sample_NumberToString string nat (list RawRow)
    sample_decodeURIComponent sample_s3_send
    (sample_XLSX_read [row_ann; row_two_ats; row_bob])
    sample_sheet_to_json (sample_dynamoDB_send 9) sample_event (0, [])
  = (inr tt,
     (1, [S3GetObject string (u16 "uploads") (u16 "new users.xlsx");
          BatchWriteItem string TABLE_NAME
            (Some (buildPutRequests sample_NumberToString [row_ann; row_bob]));
          Console string LLog (u16 "Uploaded 2 records to DynamoDB.") [];
          Console string LWarn (u16 "skipped 1 rows:")
            [ArgStrings string [Some (u16 "Row 3: Invalid 'email'")]]])).
Proof. vm_compute. reflexivity. Qed.

(** A sheet with no data row: the fetch, then "Excel sheet is empty." *)
Example header_only_sheet :
  handler sample_NumberToString string nat (list RawRow)
    sample_decodeURIComponent sample_s3_send (sample_XLSX_read [])
    sample_sheet_to_json (sample_dynamoDB_send 9) sample_event (0, [])
  = (inr tt,
     (0, [S3GetObject string (u16 "uploads") (u16 "new users.xlsx");
          Console string LError (u16 "Excel sheet is empty.") []])).
Proof. vm_compute. reflexivity. Qed.

(** The store throws on the second of three batches: two writes are
    issued, then the failure is logged and the handler returns. *)
Example store_throws_on_second_batch :
  let putRequests := buildPutRequests sample_NumberToString (replicate 60 row_bob) in
  handler sample_NumberToString string nat (list RawRow)
    sample_decodeURIComponent sample_s3_send
    (sample_XLSX_read (replicate 60 row_bob))
    sample_sheet_to_json (sample_dynamoDB_send 1) sample_event (0, [])
  = (inr tt,
     (1, [S3GetObject string (u16 "uploads") (u16 "new users.xlsx");
          BatchWriteItem string TABLE_NAME (Some (take 25 putRequests));
          BatchWriteItem string TABLE_NAME (Some (take 25 (drop 25 putRequests)));
          Console string LError (u16 "Lambda failed:")
            [ArgError string "throttled"%string]])).
Proof. vm_compute. reflexivity. Qed.

(** The rows of the specification's examples. *)
Example ftp_url_is_rejected :
  validateUser sample_NumberToString
    (<["profileImageUrl" := JString (u16 "ftp://x.com")]> row_bob) 0
  = invalid 0 "Invalid 'profileImageUrl'".
Proof. vm_compute. reflexivity. Qed.

Example email_without_dot_is_rejected :
  validateUser sample_NumberToString
    (<["email" := JString (u16 "foo@bar")]> row_bob) 4
  = invalid 4 "Invalid 'email'".
Proof. vm_compute. reflexivity. Qed.

Example numeric_userId_is_stringified :
  ToString sample_NumberToString (prop row_ann "userId") = u16 "7".
Proof. vm_compute. reflexivity. Qed.

(** ** Worked instances of the further properties *)

Lemma numeric_name_is_rejected :
  userId_fails row_numeric_name = false
  ∧ validateUser sample_NumberToString row_numeric_name 0
    = invalid 0 "Missing or invalid 'name'".
Proof.
  split; [reflexivity|].
  apply (proj2 (name_check_rejects_iff sample_NumberToString row_numeric_name 0
                  eq_refl)).
  intros (s & Hs & _). vm_compute in Hs. discriminate Hs.
Defined.

Lemma email_of_ann_has_one_at :
  isValidEmail sample_NumberToString (JString (u16 "ann@example.com")) = true
  ∧ length (filter (λ c, c = at_sign) (u16 "ann@example.com")) = 1.
Proof.
  split; [reflexivity|].
  exact (proj1 (valid_email_one_at sample_NumberToString
                  (u16 "ann@example.com") eq_refl)).
Defined.

Lemma item_of_ann_holds_strings :
  valid (validateUser sample_NumberToString row_ann 0) = true
  ∧ ∃ item sname,
      buildPutRequests sample_NumberToString [row_ann]
      = [{| PutRequest := {| Item := item |} |}]
      ∧ item !! "name" = Some (AttrS (JString sname)) ∧ sname ≠ []
      ∧ item !! "profileImage"
        = Some (AttrS (JString (u16 "https://x.com/ann.png")))
      ∧ url_shape (u16 "https://x.com/ann.png").
Proof.
  split; [reflexivity|].
  destruct (items_of_valid_rows sample_NumberToString row_ann 0 eq_refl)
    as (item & sid & sname & semail & Hb & _ & Hname & Hne & _ & _ & _ & _
        & Hurl & _).
  exists item, sname. split; [exact Hb|]. split; [exact Hname|].
  split; [exact Hne|].
  apply (Hurl (u16 "https://x.com/ann.png")); [reflexivity|discriminate].
Defined.

Lemma thirty_items_are_written_in_two_batches :
  let putRequests := buildPutRequests sample_NumberToString (replicate 30 row_bob) in
  writeToDynamoDBInBatches string nat (sample_dynamoDB_send 9) putRequests (0, [])
  = (inr tt,
     (world_after string nat (sample_dynamoDB_send 9) (batches putRequests) 0,
      [] ++ ((λ b, BatchWriteItem string TABLE_NAME (Some b))
               <$> contiguous_chunks BATCH_SIZE putRequests)))
  ∧ concat (contiguous_chunks BATCH_SIZE putRequests) = putRequests.
Proof.
  intros putRequests.
  refine (all_writes_cover_the_input string nat (sample_dynamoDB_send 9)
            putRequests (0, []) _).
  intros [|[|j]] b Hb; [vm_compute; reflexivity|vm_compute; reflexivity|].
  vm_compute in Hb. discriminate Hb.
Defined.

Lemma trigger_without_records_is_malformed :
  handler sample_NumberToString string nat (list RawRow)
    sample_decodeURIComponent sample_s3_send (sample_XLSX_read [row_ann])
    sample_sheet_to_json (sample_dynamoDB_send 9) {| Records := [] |} (7, [])
  = (inr tt, (7, [] ++ [Console string LError (u16 "Invalid event format") []])).
Proof.
  exact (handler_malformed_trigger sample_NumberToString string nat
           (list RawRow) sample_decodeURIComponent sample_s3_send
           (sample_XLSX_read [row_ann]) sample_sheet_to_json
           (sample_dynamoDB_send 9) {| Records := [] |} (7, [])
           (or_introl (or_introl eq_refl))).
Defined.

Lemma undecodable_key_is_not_fetched :
  handler sample_NumberToString string nat (list RawRow)
    (λ _, inl "URI malformed"%string) sample_s3_send
    (sample_XLSX_read [row_ann]) sample_sheet_to_json (sample_dynamoDB_send 9)
    sample_event (0, [])
  = (inr tt,
     (0, [] ++ [Console string LError (u16 "Lambda failed:")
                  [ArgError string "URI malformed"%string]])).
Proof.
  exact (handler_undecodable_key sample_NumberToString string nat
           (list RawRow) (λ _, inl "URI malformed"%string) sample_s3_send
           (sample_XLSX_read [row_ann]) sample_sheet_to_json
           (sample_dynamoDB_send 9) sample_event (0, [])
           (u16 "uploads") (u16 "new+users.xlsx") "URI malformed"%string
           eq_refl eq_refl eq_refl eq_refl eq_refl).
Defined.

Lemma unparsable_workbook_is_logged :
  handler sample_NumberToString string nat (list RawRow)
    sample_decodeURIComponent sample_s3_send
    (λ _, inl "not a workbook"%string) sample_sheet_to_json
    (sample_dynamoDB_send 9) sample_event (0, [])
  = (inr tt,
     (0, [] ++ [S3GetObject string (u16 "uploads") (u16 "new users.xlsx");
                Console string LError (u16 "Lambda failed:")
                  [ArgError string "not a workbook"%string]])).
Proof.
  refine (handler_decode_failure sample_NumberToString string nat
            (list RawRow) sample_decodeURIComponent sample_s3_send
            (λ _, inl "not a workbook"%string) sample_sheet_to_json
            (sample_dynamoDB_send 9) sample_event (0, [])
            (u16 "uploads") (u16 "new users.xlsx") 0
            {| chunks := [[x50; x4b]]; stream_error := None |}
            "not a workbook"%string _ _).
  - exists (u16 "new+users.xlsx"). repeat split; reflexivity.
  - right. left. exists [x50; x4b]. split; reflexivity.
Defined.

Lemma header_only_sheet_is_empty :
  decodes_to string nat (list RawRow) sample_decodeURIComponent sample_s3_send
    (sample_XLSX_read []) sample_sheet_to_json
    sample_event (0, []) (u16 "uploads") (u16 "new users.xlsx") 0 []
  ∧ handler sample_NumberToString string nat (list RawRow)
      sample_decodeURIComponent sample_s3_send (sample_XLSX_read [])
      sample_sheet_to_json (sample_dynamoDB_send 9) sample_event (0, [])
    = (inr tt,
       (0, [] ++ [S3GetObject string (u16 "uploads") (u16 "new users.xlsx");
                  Console string LError (u16 "Excel sheet is empty.") []])).
Proof.
  assert (decodes_to string nat (list RawRow) sample_decodeURIComponent
            sample_s3_send (sample_XLSX_read []) sample_sheet_to_json
            sample_event (0, []) (u16 "uploads") (u16 "new users.xlsx") 0 [])
    as Hdec.
  { exists (u16 "new+users.xlsx"),
      {| chunks := [[x50; x4b]]; stream_error := None |}, [x50; x4b],
      {| SheetNames := Some ["Sheet1"%string];
         Sheets := {["Sheet1"%string := []]} |},
      "Sheet1"%string, [].
    repeat split; reflexivity. }
  split; [exact Hdec|].
  exact (proj2 (handler_nothing_to_read sample_NumberToString string nat
                  (list RawRow) sample_decodeURIComponent sample_s3_send
                  (sample_XLSX_read []) sample_sheet_to_json
                  (sample_dynamoDB_send 9) sample_event (0, [])
                  (u16 "uploads") (u16 "new users.xlsx") 0
                  {| chunks := [[x50; x4b]]; stream_error := None |}) Hdec).
Defined.

Lemma missing_object_is_logged :
  handler sample_NumberToString string nat (list RawRow)
    sample_decodeURIComponent (λ _ _ w, (inl "NoSuchKey"%string, w))
    (sample_XLSX_read [row_ann]) sample_sheet_to_json (sample_dynamoDB_send 9)
    sample_event (0, [])
  = (inr tt,
     (0, [] ++ [S3GetObject string (u16 "uploads") (u16 "new users.xlsx");
                Console string LError (u16 "Lambda failed:")
                  [ArgError string "NoSuchKey"%string]])).
Proof.
  exact (handler_fetch_failure sample_NumberToString string nat
           (list RawRow) sample_decodeURIComponent
           (λ _ _ w, (inl "NoSuchKey"%string, w))
           (sample_XLSX_read [row_ann]) sample_sheet_to_json
           (sample_dynamoDB_send 9) sample_event (0, [])
           (u16 "uploads") (u16 "new+users.xlsx") (u16 "new users.xlsx")
           "NoSuchKey"%string 0
           eq_refl eq_refl eq_refl eq_refl eq_refl eq_refl).
Defined.

Lemma sample_sheet_decodes (jsonData : list RawRow) :
  decodes_to string nat (list RawRow) sample_decodeURIComponent sample_s3_send
    (sample_XLSX_read jsonData) sample_sheet_to_json
    sample_event (0, []) (u16 "uploads") (u16 "new users.xlsx") 0 jsonData.
Proof.
  exists (u16 "new+users.xlsx"),
    {| chunks := [[x50; x4b]]; stream_error := None |}, [x50; x4b],
    {| SheetNames := Some ["Sheet1"%string];
       Sheets := {["Sheet1"%string := jsonData]} |},
    "Sheet1"%string, [].
  repeat split; reflexivity.
Qed.

Lemma thirty_rows_store_throws_on_second_batch :
  let jsonData := replicate 30 row_bob in
  let putRequests := buildPutRequests sample_NumberToString jsonData in
  handler sample_NumberToString string nat (list RawRow)
    sample_decodeURIComponent sample_s3_send (sample_XLSX_read jsonData)
    sample_sheet_to_json (sample_dynamoDB_send 1) sample_event (0, [])
  = (inr tt,
     (1, [S3GetObject string (u16 "uploads") (u16 "new users.xlsx");
          BatchWriteItem string TABLE_NAME (Some (take 25 putRequests));
          BatchWriteItem string TABLE_NAME (Some (drop 25 putRequests));
          Console string LError (u16 "Lambda failed:")
            [ArgError string "throttled"%string]])).
Proof.
  intros jsonData putRequests.
  refine (eq_trans
    (handler_store_failure sample_NumberToString string nat (list RawRow)
       sample_decodeURIComponent sample_s3_send (sample_XLSX_read jsonData)
       sample_sheet_to_json (sample_dynamoDB_send 1) sample_event (0, [])
       (u16 "uploads") (u16 "new users.xlsx") 0 jsonData 1
       (Some (drop 25 putRequests)) "throttled"%string
       (sample_sheet_decodes jsonData) _ _ _ _) _).
  - intros H. apply (f_equal length) in H. vm_compute in H. discriminate H.
  - vm_compute. reflexivity.
  - intros j b Hj Hb. assert (j = 0) as -> by lia. vm_compute. reflexivity.
  - vm_compute. reflexivity.
  - vm_compute. reflexivity.
Defined.

Lemma two_valid_rows_are_uploaded :
  let jsonData := [row_ann; row_two_ats; row_bob] in
  handler sample_NumberToString string nat (list RawRow)
    sample_decodeURIComponent sample_s3_send (sample_XLSX_read jsonData)
    sample_sheet_to_json (sample_dynamoDB_send 9) sample_event (0, [])
  = (inr tt,
     (1, [S3GetObject string (u16 "uploads") (u16 "new users.xlsx");
          BatchWriteItem string TABLE_NAME
            (Some (buildPutRequests sample_NumberToString [row_ann; row_bob]));
          Console string LLog (u16 "Uploaded 2 records to DynamoDB.") [];
          Console string LWarn (u16 "skipped 1 rows:")
            [ArgStrings string [Some (u16 "Row 3: Invalid 'email'")]]])).
Proof.
  intros jsonData.
  refine (eq_trans
    (handler_uploads_valid_rows sample_NumberToString string nat (list RawRow)
       sample_decodeURIComponent sample_s3_send (sample_XLSX_read jsonData)
       sample_sheet_to_json (sample_dynamoDB_send 9) sample_event (0, [])
       (u16 "uploads") (u16 "new users.xlsx") 0 jsonData
       (sample_sheet_decodes jsonData) _ _) _).
  - intros H. apply (f_equal length) in H. vm_compute in H. discriminate H.
  - intros [|j] b Hb; [vm_compute; reflexivity|].
    vm_compute in Hb. discriminate Hb.
  - vm_compute. reflexivity.
Defined.


(** The twin on the same sheet: the last line carries no diagnostics. *)
Example twin_skips_one_row :
  handler_twin sample_NumberToString string nat (list RawRow)
    sample_decodeURIComponent sample_s3_send
    (sample_XLSX_read [row_ann; row_two_ats; row_bob])
    (sample_dynamoDB_send 9) sample_sheet_to_json "TypeError"%string
    {| twin_Records := Some (Records sample_event) |} (0, [])
  = (inr tt,
     (1, [S3GetObject string (u16 "uploads") (u16 "new users.xlsx");
          BatchWriteItem string TABLE_NAME
            (Some (buildPutRequests sample_NumberToString [row_ann; row_bob]));
          Console string LLog (u16 "Uploaded 2 records to DynamoDB.") [];
          Console string LLog
            (u16 "skipped 1 rows due to validation errors.") []])).
Proof. vm_compute. reflexivity. Qed.

(** A cell holding false passes the image check and is stored as false. *)
Example false_image_is_stored_as_false :
  let user := <["profileImageUrl" := JBoolean false]> row_bob in
  valid (validateUser sample_NumberToString user 0) = true
  ∧ ∃ item,
      buildPutRequests sample_NumberToString [user]
      = [{| PutRequest := {| Item := item |} |}]
      ∧ item !! "profileImage" = Some (AttrS (JBoolean false)).
Proof.
  split; [reflexivity|]. eexists. split; [reflexivity|]. vm_compute. reflexivity.
Qed.
